(** * orangecontrib.text.import_documents: a shallow embedding

    The module ingests a tree of document files, reads each one through a
    registry of per-format readers, and assembles a corpus onto which
    sidecar metadata is joined.  This development embeds the module's
    functions (src/orangecontrib/text/import_documents.py) and proves the
    properties stated about them.

    Conventions.
    - Python [str] is [string]; paths follow the POSIX flavour of pathlib
      and os.path.
    - Third-party extraction (docx2txt, odf, pdfminer, bs4, pandas.read_csv,
      yaml.safe_load), the file system, the network and the externally
      written cancellation flag are oracles collected in a [World] record.
    - Effects are threaded through a small state-and-exception monad: the
      state holds the live temporary files, the number of cancellation polls
      made so far and the trace of observable events.
    - Library calls are embedded by their documented behaviour on the
      values this module passes them: [fnmatch] on patterns without bracket
      expressions, pandas frames whose cells are strings or missing, and
      [Orange.data.util.get_unique_names] on a single proposed name. *)

From Stdlib Require Import Ascii DecimalString DecimalNat.
From stdpp Require Import base option list strings gmap.

Local Open Scope char_scope.
Local Open Scope stdpp_scope.

(** ** Strings *)

Module Str.

Definition ascii_eqb (a b : ascii) : bool := bool_decide (a = b).

Definition eqb (s t : string) : bool := bool_decide (s = t).

(** [s.startswith(p)] *)
Fixpoint startswith (p s : string) : bool :=
  match p, s with
  | "", _ => true
  | String a p', String b s' => ascii_eqb a b && startswith p' s'
  | String _ _, "" => false
  end.

(** [s.endswith("/")], [s.endswith(".")]: the last character is [c]. *)
Fixpoint endswith_char (c : ascii) (s : string) : bool :=
  match s with
  | "" => false
  | String a "" => ascii_eqb a c
  | String _ s' => endswith_char c s'
  end.

(** [s[i:]] *)
Fixpoint drop (i : nat) (s : string) : string :=
  match i, s with
  | O, _ => s
  | S i', String _ s' => drop i' s'
  | S _, "" => ""
  end.

(** [s[:i]] *)
Fixpoint take (i : nat) (s : string) : string :=
  match i, s with
  | O, _ => ""
  | S i', String a s' => String a (take i' s')
  | S _, "" => ""
  end.

(** [s.split(sep)] for a one-character separator: always at least one
    field. *)
Fixpoint split (sep : ascii) (s : string) : list string :=
  match s with
  | "" => [""]
  | String a s' =>
      if ascii_eqb a sep then "" :: split sep s'
      else match split sep s' with
           | [] => [String a ""]
           | w :: ws => String a w :: ws
           end
  end.

(** [sep.join(l)] *)
Fixpoint join (sep : string) (l : list string) : string :=
  match l with
  | [] => ""
  | [w] => w
  | w :: ws => w +:+ sep +:+ join sep ws
  end.

(** ["".join(l)] *)
Definition concat (l : list string) : string := foldr String.app "" l.

(** [s.rfind(c)]: index of the last occurrence of [c]. *)
Fixpoint rfind (c : ascii) (s : string) : option nat :=
  match s with
  | "" => None
  | String a s' =>
      match rfind c s' with
      | Some i => Some (S i)
      | None => if ascii_eqb a c then Some 0 else None
      end
  end.

(** [s.lstrip(c)] *)
Fixpoint lstrip (c : ascii) (s : string) : string :=
  match s with
  | String a s' => if ascii_eqb a c then lstrip c s' else s
  | "" => ""
  end.

(** [s.lower()] on the ASCII letters. *)
Definition lower_char (a : ascii) : ascii :=
  let n := nat_of_ascii a in
  if (65 <=? n)%nat && (n <=? 90)%nat then ascii_of_nat (n + 32) else a.

Fixpoint lower (s : string) : string :=
  match s with
  | "" => ""
  | String a s' => String (lower_char a) (lower s')
  end.

(** Removes the prefix [p] when [s] starts with it. *)
Fixpoint strip_prefix (p s : string) : option string :=
  match p, s with
  | "", _ => Some s
  | String a p', String b s' =>
      if ascii_eqb a b then strip_prefix p' s' else None
  | String _ _, "" => None
  end.

(** Removes the last character when it is [c]. *)
Fixpoint strip_last (c : ascii) (s : string) : option string :=
  match s with
  | "" => None
  | String a "" => if ascii_eqb a c then Some "" else None
  | String a s' => String a <$> strip_last c s'
  end.

End Str.

(** ** pathlib (pure POSIX paths) and os.path.join *)

Module PathLib.

(** The root of a POSIX path: ["/"], ["//"] for exactly two leading
    slashes, or none. *)
Definition root (p : string) : string :=
  match p with
  | String "/" (String "/" (String "/" _)) => "/"
  | String "/" (String "/" _) => "//"
  | String "/" _ => "/"
  | _ => ""
  end.

(** The components after the root: empty and ["."] segments are dropped
    when a path is parsed. *)
Definition segments (p : string) : list string :=
  filter (λ c, c ≠ "" ∧ c ≠ ".") (Str.split "/" p).

(** [PurePath(p).parts] *)
Definition parts (p : string) : list string :=
  (if Str.eqb (root p) "" then [] else [root p]) ++ segments p.

(** [PurePath(p).name]: the final component, [""] when there is none. *)
Definition name (p : string) : string := List.last (segments p) "".

(** The rule shared by [suffix] and [stem]: the last dot of the name
    counts when it is neither its first nor its last character. *)
Definition suffix_index (nm : string) : option nat :=
  match Str.rfind "." nm with
  | Some i =>
      if (0 <? i)%nat && (i <? String.length nm - 1)%nat then Some i
      else None
  | None => None
  end.

(** [PurePath(p).suffix] *)
Definition suffix (p : string) : string :=
  match suffix_index (name p) with
  | Some i => Str.drop i (name p)
  | None => ""
  end.

(** [PurePath(p).stem] *)
Definition stem (p : string) : string :=
  match suffix_index (name p) with
  | Some i => Str.take i (name p)
  | None => name p
  end.

(** [PurePath(p).suffixes] *)
Definition suffixes (p : string) : list string :=
  if Str.endswith_char "." (name p) then []
  else (λ s, "." +:+ s) <$> tail (Str.split "." (Str.lstrip "." (name p))).

(** [PurePath(p).parent.parts]: the parts without the final component;
    a path that has only a root is its own parent. *)
Definition parent_parts (p : string) : list string :=
  (if Str.eqb (root p) "" then [] else [root p])
    ++ removelast (segments p).

(** [os.path.join(a, b)] *)
Definition join (a b : string) : string :=
  if Str.startswith "/" b then b
  else if Str.eqb a "" || Str.endswith_char "/" a then a +:+ b
  else a +:+ "/" +:+ b.

End PathLib.

(** ** fnmatch

    [fnmatch.fnmatch(name, pat)] for patterns made of [*], [?] and literal
    characters, which are the patterns this module builds (["*.<format>"],
    ["*.csv"], ["*"], [".*"]); bracket expressions are not modelled and a
    ['['] is matched literally.  On POSIX [os.path.normcase] is the
    identity, so matching is case-sensitive. *)

Fixpoint fnmatch_pat (pat : string) : string → bool :=
  match pat with
  | "" => λ s, Str.eqb s ""
  | String c pat' =>
      if Str.ascii_eqb c "*" then
        fix star (s : string) : bool :=
          fnmatch_pat pat' s
          || match s with
             | "" => false
             | String _ s' => star s'
             end
      else if Str.ascii_eqb c "?" then
        λ s, match s with
             | "" => false
             | String _ s' => fnmatch_pat pat' s'
             end
      else
        λ s, match s with
             | "" => false
             | String d s' => Str.ascii_eqb c d && fnmatch_pat pat' s'
             end
  end.

Definition fnmatch (name pat : string) : bool := fnmatch_pat pat name.

(** [matches_any(fname, patterns)]: the name is lowercased, the patterns
    are not. *)
Definition matches_any (fname : string) (patterns : list string) : bool :=
  existsb (λ pattern, fnmatch (Str.lower fname) pattern) patterns.

(** ** Data model *)

(** A pandas cell as this module meets it: a string, or missing (NaN). *)
Inductive cell := NaN | Val (s : string).

Global Instance cell_eq_dec : EqDecision cell.
Proof. solve_decision. Defined.

(** A data frame, column by column: every column holds [nrows] cells. *)
Record DataFrame := {
  nrows : nat;
  columns : list (string * list cell)
}.

(** What [yaml.safe_load] returns: a mapping of scalars, nothing (an empty
    document), or some other value. *)
Inductive YamlValue :=
| YMap (m : list (string * cell))
| YNull
| YOther.

(** The [content] attribute a reader ends up with. *)
Inductive Content :=
| CStr (s : string)
| CFrame (df : DataFrame)
| CYaml (y : YamlValue).

(** [TextData = namedtuple("Text", ["name", "path", "ext", "category",
    "content"])] *)
Record TextData := {
  td_name : string;
  td_path : string;
  td_ext : list string;
  td_category : string;
  td_content : Content
}.

(** The exceptions that occur; all of them derive from [Exception].
    [ExtractionError] stands for whatever a parser, the OS or the network
    raises. *)
Inductive exn :=
| NoDocumentsException
| NotImplementedError
| TypeError
| AttributeError
| IndexError
| ValueError
| RecursionError
| ExtractionError.

(** A directory as [os.walk] sees it: sub-directories and file names, in
    the order the OS reports them. *)
#[warnings="-register-all"]
Inductive dirtree :=
| Dir (subdirs : list (string * dirtree)) (files : list string).

(** The argument of the progress callback,
    [namespace(progress=..., lastpath=..., batch=...)].  [progress] is the
    quotient [len(text_data) / n_paths], kept as numerator and denominator;
    [batch] is shown as the callback sees it when it is called. *)
Record Notification := {
  progress : nat * nat;
  lastpath : string;
  batch : list (list TextData)
}.

(** Observable events of a run: [read] is called on a reader for a path;
    the progress callback is called with a notification. *)
Inductive Event :=
| EvRead (path : string)
| EvProgress (n : Notification).

(** ** The environment *)

Inductive ReaderClass :=
| Reader
| TxtReader
| DocxReader
| OdtReader
| PdfReader
| XmlReader
| CsvMetaReader
| YamlMetaReader
| UrlReader.

Global Instance ReaderClass_eq_dec : EqDecision ReaderClass.
Proof. solve_decision. Defined.

Record World := {
  (** the directory tree found at a path, if it is a directory *)
  directory : string → option dirtree;
  (** the bytes of a local file; [None] when it cannot be opened *)
  file_bytes : string → option string;
  (** format-specific text extraction; [None] when the parser raises *)
  extract : ReaderClass → string → option string;
  (** [pd.read_csv] and [yaml.safe_load] on a file's bytes *)
  read_csv : string → option DataFrame;
  safe_load : string → option YamlValue;
  (** [unicodedata.normalize('NFC', s)] *)
  normalize_NFC : string → string;
  (** [serverfiles.ServerFiles(topdir).listfiles()]; [None] is a
      [ConnectionError] *)
  listfiles : string → option (list (list string));
  (** quoting, redirects and [urlopen] for a URL: [None] when one of them
      raises, otherwise the file name suggested by the content-disposition
      header and the body, [None] when reading the body raises *)
  urlopen : string → option (string * option string);
  (** directory and random stem of the n-th [NamedTemporaryFile] *)
  tmp_stem : nat → string;
  (** the interpreter's recursion limit *)
  recursion_limit : nat;
  (** [self.cancelled] as it reads at the n-th poll; the flag is written
      by the caller *)
  cancelled : nat → bool
}.

Record State := {
  tmpfiles : gmap string string;
  ntmp : nat;
  polls : nat;
  trace : list Event
}.

Definition initial_state : State :=
  {| tmpfiles := ∅; ntmp := 0; polls := 0; trace := [] |}.

(** ** State and exceptions *)

Inductive result (A : Type) :=
| Ok (a : A)
| Raise (e : exn).
Arguments Ok {A} a.
Arguments Raise {A} e.

Definition M (A : Type) : Type := State → result A * State.

Definition ret {A} (a : A) : M A := λ st, (Ok a, st).

Definition raise {A} (e : exn) : M A := λ st, (Raise e, st).

Definition bind {A B} (m : M A) (k : A → M B) : M B :=
  λ st, match m st with
        | (Ok a, st') => k a st'
        | (Raise e, st') => (Raise e, st')
        end.

Global Instance M_ret : MRet M := @ret.
Global Instance M_bind : MBind M := λ A B k m, bind m k.

(** The outcome of [m] as a value, for [try: ... except Exception: ...
    else: ...]: nothing propagates. *)
Definition catch {A} (m : M A) : M (result A) :=
  λ st, let '(r, st') := m st in (Ok r, st').

(** An oracle answer: [None] is an exception. *)
Definition lift {A} (o : option A) : M A :=
  match o with
  | Some a => ret a
  | None => raise ExtractionError
  end.

Definition emit (e : Event) : M unit :=
  λ st, (Ok tt, {| tmpfiles := tmpfiles st; ntmp := ntmp st;
                   polls := polls st; trace := trace st ++ [e] |}).

(** Reading [self.cancelled] *)
Definition poll_cancelled (w : World) : M bool :=
  λ st, (Ok (cancelled w (polls st)),
         {| tmpfiles := tmpfiles st; ntmp := ntmp st;
            polls := S (polls st); trace := trace st |}).

(** [NamedTemporaryFile(suffix=extension, delete=False)]: a new, empty
    file. *)
Definition NamedTemporaryFile (w : World) (extension : string) : M string :=
  λ st, let f := tmp_stem w (ntmp st) +:+ extension in
        (Ok f, {| tmpfiles := <[f := ""]> (tmpfiles st); ntmp := S (ntmp st);
                  polls := polls st; trace := trace st |}).

Definition write (f data : string) : M unit :=
  λ st, (Ok tt, {| tmpfiles := <[f := data]> (tmpfiles st); ntmp := ntmp st;
                   polls := polls st; trace := trace st |}).

(** [os.remove(f)] *)
Definition os_remove (f : string) : M unit :=
  λ st, (Ok tt, {| tmpfiles := delete f (tmpfiles st); ntmp := ntmp st;
                   polls := polls st; trace := trace st |}).

(** Opening a file for reading: a live temporary file, or a file of the
    local file system. *)
Definition open (w : World) (path : string) : M string :=
  λ st, match tmpfiles st !! path with
        | Some b => (Ok b, st)
        | None => lift (file_bytes w path) st
        end.

(** ** Readers *)

(** The [ext] class attribute; the base class has none. *)
Definition ext (cls : ReaderClass) : option (list string) :=
  match cls with
  | Reader => None
  | TxtReader => Some [".txt"]
  | DocxReader => Some [".docx"]
  | OdtReader => Some [".odt"]
  | PdfReader => Some [".pdf"]
  | XmlReader => Some [".xml"]
  | CsvMetaReader => Some [".csv"]
  | YamlMetaReader => Some [".yaml"]
  | UrlReader => Some [".url"]
  end.

(** [Reader.registry]: the subclasses, in the order they are defined. *)
Definition registry : list ReaderClass :=
  [TxtReader; DocxReader; OdtReader; PdfReader; XmlReader;
   CsvMetaReader; YamlMetaReader; UrlReader].

(** A reader instance.  [replace_white_space] keeps its default [False] in
    every reader this module constructs, so the whitespace substitution of
    [make_text_data] is never taken and is left out. *)
Record ReaderObj := {
  cls : ReaderClass;
  path : string
}.

Definition declares (e : string) (c : ReaderClass) : bool :=
  match ext c with
  | Some l => bool_decide (e ∈ l)
  | None => false
  end.

(** [Reader.get_reader(path)] *)
Definition get_reader (p : string) : ReaderObj :=
  let e := PathLib.suffix p in
  match List.find (declares e) registry with
  | Some reader => {| cls := reader; path := p |}
  | None => {| cls := Reader; path := p |}
  end.

(** [read_file], per class.  [depth] bounds the nesting of [UrlReader]
    delegating to a reader for the downloaded file, which may be a
    [UrlReader] again. *)
Fixpoint read_file (w : World) (depth : nat) (c : ReaderClass) (p : string)
  : M Content :=
  match c with
  | Reader => raise NotImplementedError
  | TxtReader | DocxReader | OdtReader | PdfReader | XmlReader =>
      b ← open w p;
      t ← lift (extract w c b);
      ret (CStr t)
  | CsvMetaReader =>
      b ← open w p;
      df ← lift (read_csv w b);
      ret (CFrame df)
  | YamlMetaReader =>
      b ← open w p;
      y ← lift (safe_load w b);
      ret (CYaml y)
  | UrlReader =>
      match depth with
      | O => raise RecursionError
      | S depth' =>
          response ← lift (urlopen w p);
          let extension := Str.concat (PathLib.suffixes (fst response)) in
          f ← NamedTemporaryFile w extension;
          body ← lift (snd response);
          write f body;;
          let reader := get_reader f in
          content ← read_file w depth' (cls reader) (path reader);
          os_remove f;;
          ret content
      end
  end.

(** [Reader.make_text_data]; [directory.parts[-1]] raises [IndexError]
    when the parent has no parts, and [self.ext] raises [AttributeError]
    on the base class. *)
Definition make_text_data_base (r : ReaderObj) (content : Content)
  : M TextData :=
  let name := PathLib.stem (path r) in
  match List.last (Some <$> PathLib.parent_parts (path r)) None with
  | None => raise IndexError
  | Some part =>
      let category := if Str.eqb part "" then "None" else part in
      match ext (cls r) with
      | None => raise AttributeError
      | Some e =>
          ret {| td_name := name; td_path := path r; td_ext := e;
                 td_category := category; td_content := content |}
      end
  end.

(** [UrlReader.make_text_data] replaces [ext] by the suffix of the URL. *)
Definition make_text_data (r : ReaderObj) (content : Content) : M TextData :=
  text_data ← make_text_data_base r content;
  match cls r with
  | UrlReader =>
      ret {| td_name := td_name text_data; td_path := td_path text_data;
             td_ext := [PathLib.suffix (path r)];
             td_category := td_category text_data;
             td_content := td_content text_data |}
  | _ => ret text_data
  end.

(** [Reader.read]: the failure boundary around [read_file]. *)
Definition read (w : World) (r : ReaderObj) : M (option TextData * string) :=
  emit (EvRead (path r));;
  attempt ← catch (read_file w (recursion_limit w) (cls r) (path r));
  match attempt with
  | Raise ex => ret (None, PathLib.name (path r))
  | Ok content =>
      textdata ← make_text_data r content;
      ret (Some textdata, "")
  end.

(** ** Scanner *)

(** [list.remove(x)]: drops the first element equal to [x]. *)
Fixpoint list_remove (x : string) (l : list string) : list string :=
  match l with
  | [] => []
  | y :: l' => if Str.eqb y x then l' else y :: list_remove x l'
  end.

(** The pruning loop of [scan]:
    [for dirname in list(dirnames): if fnmatch(dirname, ".*"):
    dirnames.remove(dirname)], iterating over a copy. *)
Definition prune_hidden (dirnames : list string) : list string :=
  foldl (λ remaining dirname,
           if fnmatch dirname ".*" then list_remove dirname remaining
           else remaining)
        dirnames dirnames.

(** The file-name filter of [scan]. *)
Definition keep_file (include_patterns exclude_patterns : list string)
    (fname : string) : bool :=
  matches_any fname include_patterns
  && negb (matches_any fname exclude_patterns).

(** [os.walk(top)] as the loop of [scan] drives it, top-down: each step
    yields the directory path, the names of its sub-directories and its
    file names; the loop body prunes [dirnames] in place, and the walk then
    descends into the sub-directories whose names remain, in order.
    Entries of a directory have distinct names, so descending into the
    entries whose names remain is descending into the names that remain. *)
Fixpoint os_walk (top : string) (t : dirtree)
  : list (string * list string * list string) :=
  match t with
  | Dir subdirs filenames =>
      let dirnames := prune_hidden (fst <$> subdirs) in
      (top, dirnames, filenames)
      :: (fix descend (l : list (string * dirtree)) :=
            match l with
            | [] => []
            | (dirname, sub) :: l' =>
                (if bool_decide (dirname ∈ dirnames)
                 then os_walk (PathLib.join top dirname) sub
                 else [])
                ++ descend l'
            end) subdirs
  end.

(** [ImportDocuments.scan]; [os.walk] yields nothing for a path that is
    not a directory.  Callers always pass [include_patterns]. *)
Definition scan (w : World) (topdir : string)
    (include_patterns exclude_patterns : list string) : list string :=
  match directory w topdir with
  | Some t =>
      flat_map (λ '(dirpath, dirnames, filenames),
                  PathLib.join dirpath
                    <$> List.filter
                          (keep_file include_patterns exclude_patterns)
                          filenames)
               (os_walk topdir t)
  | None => []
  end.

(** [ImportDocuments.scan_url] *)
Definition scan_url (w : World) (topdir : string)
    (include_patterns exclude_patterns : list string) : list string :=
  match listfiles w topdir with
  | None => []
  | Some files =>
      let include_patterns :=
        match include_patterns with [] => ["*"] | _ => include_patterns end in
      List.filter (λ path, matches_any path include_patterns
                           && negb (matches_any path exclude_patterns))
                  ((λ filename, topdir +:+ Str.join "/" filename) <$> files)
  end.

(** ** Data frames *)

(** The distinct elements of a list, in order of first occurrence. *)
Fixpoint unique_from {A} `{EqDecision A} (seen l : list A) : list A :=
  match l with
  | [] => []
  | x :: l' =>
      if bool_decide (x ∈ seen) then unique_from seen l'
      else x :: unique_from (x :: seen) l'
  end.

Definition unique {A} `{EqDecision A} (l : list A) : list A :=
  unique_from [] l.

Definition column_names (df : DataFrame) : list string := fst <$> columns df.

(** [df[c]] as a list of cells; all missing when [df] has no column [c]. *)
Definition get_column (df : DataFrame) (c : string) : list cell :=
  match List.find (λ col, Str.eqb (fst col) c) (columns df) with
  | Some col => snd col
  | None => replicate (nrows df) NaN
  end.

(** [pd.concat(frames)]: rows stacked, columns united in order of first
    appearance, missing cells where a frame lacks a column. *)
Definition concat_frames (frames : list DataFrame) : DataFrame :=
  {| nrows := foldr plus 0 (nrows <$> frames);
     columns := (λ c, (c, frames ≫= (λ df, get_column df c)))
                  <$> unique (frames ≫= column_names) |}.

(** [pd.concat(objs)] on what [_read_meta_data] collects: [None] entries
    are dropped, anything that is not a frame is a [TypeError], and
    nothing left to concatenate is a [ValueError]. *)
Fixpoint frames_of (objs : list Content) : result (list DataFrame) :=
  match objs with
  | [] => Ok []
  | CFrame df :: objs' =>
      match frames_of objs' with
      | Ok dfs => Ok (df :: dfs)
      | Raise e => Raise e
      end
  | CYaml YNull :: objs' => frames_of objs'
  | _ :: _ => Raise TypeError
  end.

Definition pd_concat (objs : list Content) : result DataFrame :=
  match frames_of objs with
  | Ok [] => Raise ValueError
  | Ok dfs => Ok (concat_frames dfs)
  | Raise e => Raise e
  end.

(** [pd.DataFrame(content, index=[0])] for a mapping of scalars. *)
Definition frame_of_dict (m : list (string * cell)) : DataFrame :=
  {| nrows := 1; columns := (λ kv, (fst kv, [snd kv])) <$> m |}.

(** [index.duplicated(keep='first')]: true at every label seen before. *)
Fixpoint duplicated_from (seen index : list cell) : list bool :=
  match index with
  | [] => []
  | k :: index' => bool_decide (k ∈ seen) :: duplicated_from (k :: seen) index'
  end.

Definition duplicated (index : list cell) : list bool :=
  duplicated_from [] index.

(** [values[~mask]] *)
Fixpoint drop_masked {A} (mask : list bool) (values : list A) : list A :=
  match mask, values with
  | m :: mask', v :: values' =>
      if m then drop_masked mask' values' else v :: drop_masked mask' values'
  | _, _ => []
  end.

(** Position of a label in an index. *)
Definition get_loc (index : list cell) (label : cell) : option nat :=
  fst <$> list_find (λ k, k = label) index.

(** A cell of [df.reindex(labels)]: the cell of the row carrying the
    label, missing when no row does. *)
Definition reindex_cell (index values : list cell) (label : cell) : cell :=
  match get_loc index label with
  | Some i => default NaN (values !! i)
  | None => NaN
  end.

(** One column of [df.reindex(labels)]. *)
Definition reindex_column (index labels values : list cell) : list cell :=
  reindex_cell index values <$> labels.

(** ** Orange: variables, domain, corpus *)

Record DiscreteVariable := {
  dv_name : string;
  dv_values : list string
}.

(** [var.to_val(s)]: the index of [s] among the values. *)
Definition to_val (var : DiscreteVariable) (s : string) : option nat :=
  fst <$> list_find (λ v, v = s) (dv_values var).

(** A corpus: no attributes, the class variables with their column [Y]
    (one row per document), the string meta variables with their columns,
    the variable flagged as title and the text features. *)
Record Corpus := {
  class_vars : list DiscreteVariable;
  Y : list (list nat);
  metas : list (string * list cell);
  title : string;
  text_features : list string
}.

(** The names [get_unique_names] and [in domain] look at: variables, then
    metas. *)
Definition domain_names (c : Corpus) : list string :=
  (dv_name <$> class_vars c) ++ (fst <$> metas c).

(** [int(d)] for a non-empty string of decimal digits. *)
Definition parse_index (d : string) : option nat :=
  if Str.eqb d "" then None
  else Nat.of_uint <$> NilEmpty.uint_of_string d.

Definition str_of_nat (n : nat) : string :=
  NilEmpty.string_of_uint (Nat.to_uint n).

(** The index [k] of a name of the form ["<name> (<k>)"]. *)
Definition index_of (name x : string) : option nat :=
  rest ← Str.strip_prefix (name +:+ " (") x;
  d ← Str.strip_last ")" rest;
  parse_index d.

(** [Orange.data.util.get_indices] *)
Definition get_indices (names : list string) (name : string) : list nat :=
  omap (index_of name) names.

(** [Orange.data.util.get_unique_names(names, proposed)] for one proposed
    name: the name itself when it is free and no indexed variant of it
    exists, otherwise the name with an index one above the highest index
    in use, or with index 1 when there is none. *)
Definition get_unique_names (names : list string) (proposed : string)
  : string :=
  let indices := get_indices names proposed in
  if negb (bool_decide (proposed ∈ names)) && bool_decide (indices = [])
  then proposed
  else
    let max_index :=
      match indices with
      | [] => 1
      | _ => S (foldr Nat.max 0 indices)
      end in
    proposed +:+ " (" +:+ str_of_nat max_index +:+ ")".

(** [corpus.add_column(StringVariable(name), data, to_metas=True)] *)
Definition add_column (c : Corpus) (name : string) (data : list cell)
  : Corpus :=
  {| class_vars := class_vars c; Y := Y c;
     metas := metas c ++ [(name, data)];
     title := title c; text_features := text_features c |}.

(** [corpus.get_column_view(name)[0]] for a meta column. *)
Definition get_column_view (c : Corpus) (name : string) : list cell :=
  match List.find (λ col, Str.eqb (fst col) name) (metas c) with
  | Some col => snd col
  | None => []
  end.

(** ** ImportDocuments *)

Definition DefaultFormats : list string :=
  ["docx"; "odt"; "txt"; "pdf"; "xml"].

Definition META_DATA_FILE_KEY : string := "Text file".

(** The attributes of an [ImportDocuments] instance that a run reads;
    [report_progress] tells whether a callback was given. *)
Record ImportDocuments := {
  startdir : string;
  formats : list string;
  report_progress : bool;
  is_url : bool
}.

(** [ImportDocuments.__init__] *)
Definition init (startdir : string) (is_url : bool) (formats : list string)
    (report_progress : bool) : ImportDocuments :=
  let startdir :=
    if is_url && negb (Str.endswith_char "/" startdir) then startdir +:+ "/"
    else if negb is_url then PathLib.join startdir ""
    else startdir in
  {| startdir := startdir; formats := formats;
     report_progress := report_progress; is_url := is_url |}.

(** [scan = self.scan_url if self._is_url else self.scan], called with
    the default [exclude_patterns]. *)
Definition scan_for (w : World) (self : ImportDocuments)
    (patterns : list string) : list string :=
  if is_url self then scan_url w (startdir self) patterns [".*"]
  else scan w (startdir self) patterns [".*"].

(** [Reader.get_reader(path) if not self._is_url else UrlReader(path)] *)
Definition reader_for (self : ImportDocuments) (p : string) : ReaderObj :=
  if is_url self then {| cls := UrlReader; path := p |} else get_reader p.

(** An element of [batch]: [batch.append(text_data)] stores the list
    [text_data] itself, so every element is that one list. *)
Inductive Ref := TextDataRef.

Definition deref (text_data : list TextData) (r : Ref) : list TextData :=
  match r with TextDataRef => text_data end.

(** The loop of [_read_text_data] over the remaining paths; [None] is the
    bare [return] taken when the run is cancelled. *)
Fixpoint read_text_loop (w : World) (self : ImportDocuments) (n_paths : nat)
    (paths : list string) (text_data : list TextData) (errors : list string)
    (batch : list Ref) : M (option (list TextData * list string)) :=
  match paths with
  | [] => mret (Some (text_data, errors))
  | p :: paths' =>
      batch ← (if (length batch =? 1)%nat && report_progress self
               then emit (EvProgress
                            {| progress := (length text_data, n_paths);
                               lastpath := p;
                               batch := deref text_data <$> batch |});;
                    mret []
               else mret batch);
      r ← read w (reader_for self p);
      let '(text_data, errors, batch) :=
        match fst r with
        | Some text => (text_data ++ [text], errors, batch ++ [TextDataRef])
        | None => (text_data, errors ++ [snd r], batch)
        end in
      c ← poll_cancelled w;
      if c : bool then mret None
      else read_text_loop w self n_paths paths' text_data errors batch
  end.

(** [ImportDocuments._read_text_data] *)
Definition _read_text_data (w : World) (self : ImportDocuments)
  : M (option (list TextData * list string)) :=
  let patterns := (λ fmt, "*." +:+ Str.lower fmt) <$> formats self in
  let paths := scan_for w self patterns in
  let n_paths := length paths in
  if (n_paths =? 0)%nat then raise NoDocumentsException
  else read_text_loop w self n_paths paths [] [] [].

(** The loop of [_read_meta_data]. *)
Fixpoint read_meta_loop (w : World) (self : ImportDocuments)
    (paths : list string) (meta_dfs : list Content) (errors : list string)
  : M (option (list Content * list string)) :=
  match paths with
  | [] => mret (Some (meta_dfs, errors))
  | p :: paths' =>
      r ← read w (reader_for self p);
      let '(meta_dfs, errors) :=
        match fst r with
        | Some data =>
            let content :=
              match td_content data with
              | CYaml (YMap m) => CFrame (frame_of_dict m)
              | content => content
              end in
            (meta_dfs ++ [content], errors)
        | None => (meta_dfs, errors ++ [snd r])
        end in
      c ← poll_cancelled w;
      if c : bool then mret None
      else read_meta_loop w self paths' meta_dfs errors
  end.

Definition of_result {A} (r : result A) : M A :=
  match r with
  | Ok a => mret a
  | Raise e => raise e
  end.

(** [ImportDocuments._read_meta_data] *)
Definition _read_meta_data (w : World) (self : ImportDocuments)
  : M (option (option DataFrame * list string)) :=
  let patterns := ["*.csv"; "*.yaml"; "*.yml"] in
  let paths := scan_for w self patterns in
  r ← read_meta_loop w self paths [] [];
  match r with
  | None => mret None
  | Some (meta_dfs, errors) =>
      match meta_dfs with
      | [] => mret (Some (None, errors))
      | _ => df ← of_result (pd_concat meta_dfs);
             mret (Some (Some df, errors))
      end
  end.

(** One iteration of the loop of [_create_corpus]: the normalised row and
    the category value.  [normalize] raises [TypeError] on content that is
    not a string; [to_val] raises [ValueError] on an unknown value. *)
Definition corpus_row (w : World) (category_var : DiscreteVariable)
    (textdata : TextData) : result (list cell * nat) :=
  match td_content textdata with
  | CStr content =>
      match to_val category_var (td_category textdata) with
      | Some v =>
          Ok ([Val (normalize_NFC w (td_name textdata));
               Val (normalize_NFC w (td_path textdata));
               Val (normalize_NFC w content)], v)
      | None => Raise ValueError
      end
  | _ => Raise TypeError
  end.

Fixpoint corpus_rows (w : World) (category_var : DiscreteVariable)
    (text_data : list TextData) : result (list (list cell * nat)) :=
  match text_data with
  | [] => Ok []
  | textdata :: text_data' =>
      match corpus_row w category_var textdata with
      | Raise e => Raise e
      | Ok row =>
          match corpus_rows w category_var text_data' with
          | Raise e => Raise e
          | Ok rows => Ok (row :: rows)
          end
      end
  end.

(** The distinct categories, [list(set(t.category for t in text_data))];
    the iteration order of a set is whatever [elements] gives. *)
Definition text_categories (text_data : list TextData) : list string :=
  elements (list_to_set (td_category <$> text_data) : gset string).

(** Column [i] of row-major data. *)
Definition data_column (data : list (list cell)) (i : nat) : list cell :=
  (λ row, default NaN (row !! i)) <$> data.

(** [ImportDocuments._create_corpus] *)
Definition _create_corpus (w : World) (text_data : list TextData)
  : result (option Corpus) :=
  let names := ["name"; "path"; "content"] in
  let values := text_categories text_data in
  let category_var := {| dv_name := "category"; dv_values := values |} in
  match corpus_rows w category_var text_data with
  | Raise e => Raise e
  | Ok rows =>
      let data := fst <$> rows in
      let category_data := snd <$> rows in
      let '(category_var, category_data) :=
        if (1 <? length (text_categories text_data))%nat
        then ([category_var], (λ v, [v]) <$> category_data)
        else ([], (λ _, []) <$> data) in
      if (0 <? length data)%nat then
        Ok (Some {| class_vars := category_var;
                    Y := category_data;
                    metas := imap (λ i name, (name, data_column data i)) names;
                    title := "name";
                    text_features := ["content"] |})
      else Ok None
  end.

(** The loop of [_add_metadata] over the columns of the reindexed
    frame. *)
Definition add_columns (corpus : Corpus)
    (filtered : list (string * list cell)) : Corpus :=
  foldl (λ corpus column,
           add_column corpus
             (get_unique_names (domain_names corpus) (fst column))
             (snd column))
        corpus filtered.

(** The reindexed frame of [_add_metadata]: the index is the start
    directory prepended to the file-reference column, later duplicates of
    a label are dropped, and the rows are looked up by the corpus's path
    column. *)
Definition join_index (self : ImportDocuments) (df : DataFrame) : list cell :=
  (λ c, match c with
        | Val s => Val (startdir self +:+ s)
        | NaN => NaN
        end) <$> get_column df META_DATA_FILE_KEY.

Definition filtered_columns (self : ImportDocuments) (df : DataFrame)
    (path_column : list cell) : list (string * list cell) :=
  let index := join_index self df in
  let '(index, cols) :=
    if negb (length (unique index) =? length index)%nat
    then (drop_masked (duplicated index) index,
          (λ col, (fst col, drop_masked (duplicated index) (snd col)))
            <$> columns df)
    else (index, columns df) in
  (λ col, (fst col, reindex_column index path_column (snd col))) <$> cols.

(** [ImportDocuments._add_metadata]; [corpus.domain] on [None] raises
    [AttributeError]. *)
Definition _add_metadata (self : ImportDocuments) (corpus : option Corpus)
    (meta_data : option DataFrame) : result (option Corpus) :=
  match corpus with
  | None => Raise AttributeError
  | Some corpus =>
      match meta_data with
      | None => Ok (Some corpus)
      | Some df =>
          if negb (bool_decide ("path" ∈ domain_names corpus))
             || negb (bool_decide (META_DATA_FILE_KEY ∈ column_names df))
          then Ok (Some corpus)
          else
            let path_column := get_column_view corpus "path" in
            Ok (Some (add_columns corpus
                        (filtered_columns self df path_column)))
      end
  end.

(** [ImportDocuments.run]; unpacking the [None] of a cancelled phase into
    two names raises [TypeError]. *)
Definition run (w : World) (self : ImportDocuments)
  : M (option Corpus * list string) :=
  r ← _read_text_data w self;
  match r with
  | None => raise TypeError
  | Some (text_data, errors_text) =>
      r ← _read_meta_data w self;
      match r with
      | None => raise TypeError
      | Some (meta_data, errors_meta) =>
          corpus ← of_result (_create_corpus w text_data);
          corpus ← of_result (_add_metadata self corpus meta_data);
          mret (corpus, errors_text ++ errors_meta)
      end
  end.

(** ** Vocabulary of the statements *)

(** The include patterns of the two scans. *)
Definition text_patterns (self : ImportDocuments) : list string :=
  (λ fmt, "*." +:+ Str.lower fmt) <$> formats self.

Definition meta_patterns : list string := ["*.csv"; "*.yaml"; "*.yml"].

(** The paths handed to [read] so far, in order. *)
Definition reads_of (t : list Event) : list string :=
  omap (λ e, match e with EvRead p => Some p | _ => None end) t.

(** The progress notifications sent so far, in order. *)
Definition reports_of (t : list Event) : list Notification :=
  omap (λ e, match e with EvProgress n => Some n | _ => None end) t.

(** Computations that leave the poll counter and the trace alone. *)
Definition quiet {A} (m : M A) : Prop :=
  ∀ st, polls (snd (m st)) = polls st ∧ trace (snd (m st)) = trace st.

Definition raised {A} (r : result A) : nat :=
  match r with Raise _ => 1 | Ok _ => 0 end.

(** How a reading phase ends: cancelled, completed, or by an exception. *)
Definition shape {A} (r : result (option A)) : nat :=
  match r with Ok None => 0 | Ok (Some _) => 1 | Raise _ => 2 end.

(** What holds after a reading phase over [paths] started in [st]: it
    polls the flag once after each read; a poll that sees the flag set is
    the last one and ends the phase with the bare [return]; and the files
    read are a prefix of [paths]. *)
Definition loop_post {A} (w : World) (paths : list string) (st : State)
    (out : result (option A) * State) : Prop :=
  let n := polls (snd out) - polls st in
  polls st ≤ polls (snd out)
  ∧ n ≤ length paths
  ∧ (∀ j, polls st ≤ j < polls (snd out) → cancelled w j = true →
       fst out = Ok None ∧ S j = polls (snd out))
  ∧ (fst out = Ok None →
       ∃ j, polls (snd out) = S j ∧ polls st ≤ j ∧ cancelled w j = true)
  ∧ ((∃ x, fst out = Ok (Some x)) → n = length paths)
  ∧ reads_of (trace (snd out))
    = reads_of (trace st) ++ take (n + raised (fst out)) paths.

(** [dir_at t ds t']: following the sub-directory names [ds] from [t]
    leads to the directory [t']. *)
Inductive dir_at : dirtree → list string → dirtree → Prop :=
| dir_here t : dir_at t [] t
| dir_below subdirs files d sub ds t' :
    (d, sub) ∈ subdirs → dir_at sub ds t' →
    dir_at (Dir subdirs files) (d :: ds) t'.

(** [file_at t ds f]: the directory reached by [ds] holds a file [f]. *)
Definition file_at (t : dirtree) (ds : list string) (f : string) : Prop :=
  ∃ subdirs files, dir_at t ds (Dir subdirs files) ∧ f ∈ files.

(** The path [os.walk] builds for the directory reached by [ds]. *)
Definition dirpath_of (top : string) (ds : list string) : string :=
  foldl PathLib.join top ds.

Definition hidden (dirname : string) : Prop := fnmatch dirname ".*" = true.

(** A file or directory name: not empty, no separator. *)
Fixpoint has_char (c : ascii) (s : string) : bool :=
  match s with
  | "" => false
  | String a s' => Str.ascii_eqb a c || has_char c s'
  end.

Definition valid_name (s : string) : Prop := s ≠ "" ∧ has_char "/" s = false.

Fixpoint valid_tree (t : dirtree) : Prop :=
  match t with
  | Dir subdirs files =>
      Forall valid_name files
      ∧ (fix go (l : list (string * dirtree)) : Prop :=
           match l with
           | [] => True
           | (d, sub) :: l' => valid_name d ∧ valid_tree sub ∧ go l'
           end) subdirs
  end.

(** What [os.path.join(top, c)] puts in front of a name [c]. *)
Definition base (top : string) : string :=
  if Str.eqb top "" || Str.endswith_char "/" top then top else top +:+ "/".

(** The set of distinct category values of a batch. *)
Definition categories (text_data : list TextData) : gset string :=
  list_to_set (td_category <$> text_data).

(** The categorical column [_create_corpus] makes for a batch. *)
Definition category_variable (text_data : list TextData) : DiscreteVariable :=
  {| dv_name := "category"; dv_values := elements (categories text_data) |}.

Definition is_text (t : TextData) : Prop := ∃ s, td_content t = CStr s.

(** The events of the reading loop as the progress rule describes them,
    for a sequence of reads given with their outcomes: before a path is
    read, and only if the read before it succeeded ([pending]), one
    notification is sent, carrying the number of documents read so far
    over the number of candidates, the path about to be read, and the
    batch, whose one element is the list of documents read so far.
    Nothing is sent after the last read. *)
Fixpoint loop_events (n_paths : nat) (text_data : list TextData)
    (pending : bool) (steps : list (string * option TextData))
  : list Event :=
  match steps with
  | [] => []
  | (p, outcome) :: steps' =>
      (if pending
       then [EvProgress {| progress := (length text_data, n_paths);
                           lastpath := p;
                           batch := [text_data] |}]
       else [])
      ++ EvRead p
      :: match outcome with
         | Some text => loop_events n_paths (text_data ++ [text]) true steps'
         | None => loop_events n_paths text_data false steps'
         end
  end.

(** The error label a failed read leaves in the error list. *)
Definition failure (step : string * option TextData) : option string :=
  match snd step with
  | None => Some (PathLib.name (fst step))
  | Some _ => None
  end.

(** The batch at the top of an iteration when a callback is present. *)
Definition batch_of (pending : bool) : list Ref :=
  if pending then [TextDataRef] else [].

(** The rule as the specification words it: every read is followed at
    once by a notification that names the path just read. *)
Definition reported_after_each_read (events : list Event) : Prop :=
  ∀ i p, events !! i = Some (EvRead p) →
    ∃ n, events !! S i = Some (EvProgress n) ∧ lastpath n = p.

(** ** Example environments *)

(** A document folder with two categories, a hidden directory, a corrupt
    word-processor file and two metadata files. *)
Definition demo_tree : dirtree :=
  Dir [("catA", Dir [] ["a.txt"; "broken.docx"]);
       (".git", Dir [] ["config.txt"]);
       ("catB", Dir [("deep", Dir [] ["c.TXT"])]
                    ["b.txt"; "meta.yml"; "meta.csv"])]
      ["top.txt"; ".hidden.txt"].

(** Two readable documents in two categories. *)
Definition pair_tree : dirtree :=
  Dir [("catA", Dir [] ["a.txt"]); ("catB", Dir [] ["b.txt"])] [].

Definition demo_csv : DataFrame :=
  {| nrows := 3;
     columns :=
       [("Text file", [Val "catA/a.txt"; Val "catB/b.txt"; Val "catA/a.txt"]);
        ("author", [Val "ann"; Val "bob"; Val "zed"]);
        ("name", [Val "n1"; NaN; Val "n3"])] |}.

(** Local files hold their own path as bytes; only plain text parses; the
    flag is seen set at the polls selected by [flag]. *)
Definition demo_world (flag : nat → bool) : World :=
  {| directory := λ p,
       if Str.eqb p "/data/" then Some demo_tree
       else if Str.eqb p "/pair/" then Some pair_tree
       else None;
     file_bytes := λ p, Some p;
     extract := λ c b,
       if bool_decide (c = TxtReader) then Some ("text of " +:+ b) else None;
     read_csv := λ b, Some demo_csv;
     safe_load := λ b, Some (YMap [("author", Val "cy")]);
     normalize_NFC := λ s, s;
     listfiles := λ _, None;
     urlopen := λ _, None;
     tmp_stem := λ n, "/tmp/tmpdoc";
     recursion_limit := 1000;
     cancelled := flag |}.

Definition never : nat → bool := λ _, false.

(** A remote folder: the server names the download of [meta.yml] as
    [meta.yaml], and the bytes of [broken.pdf] do not parse. *)
Definition remote_world : World :=
  {| directory := λ _, None;
     file_bytes := λ _, None;
     extract := λ c b,
       if bool_decide (c = TxtReader) then Some ("text of " +:+ b) else None;
     read_csv := λ b, None;
     safe_load := λ b, Some (YMap [("author", Val "cy")]);
     normalize_NFC := λ s, s;
     listfiles := λ _, Some [["catA"; "a.txt"]; ["catA"; "broken.pdf"];
                             ["meta.yml"]];
     urlopen := λ p,
       if Str.eqb p "http://host/docs/catA/a.txt"
       then Some ("a.txt", Some "alpha")
       else if Str.eqb p "http://host/docs/catA/broken.pdf"
       then Some ("broken.pdf", Some "%PDF garbage")
       else if Str.eqb p "http://host/docs/meta.yml"
       then Some ("meta.yaml", Some "author: cy")
       else None;
     tmp_stem := λ n, "/tmp/tmpdoc";
     recursion_limit := 1000;
     cancelled := never |}.

Definition demo : ImportDocuments := init "/data" false DefaultFormats true.

Definition demo_docx : ImportDocuments := init "/data" false ["docx"] true.

Definition demo_rtf : ImportDocuments := init "/data" false ["rtf"] true.

Definition pair : ImportDocuments := init "/pair" false DefaultFormats true.

Definition remote : ImportDocuments :=
  init "http://host/docs" true DefaultFormats true.

Definition demo_corpus : Corpus :=
  {| class_vars := [{| dv_name := "category"; dv_values := ["catA"; "catB"] |}];
     Y := [[0]; [1]; [1]];
     metas := [("name", [Val "a"; Val "b"; Val "c"]);
               ("path", [Val "/data/catA/a.txt"; Val "/data/catB/b.txt";
                         Val "/data/catB/c.txt"]);
               ("content", [Val "alpha"; Val "beta"; Val "gamma"])];
     title := "name";
     text_features := ["content"] |}.

(** The batch read from the folder of two documents. *)
Definition pair_batch : list TextData :=
  [{| td_name := "a"; td_path := "/pair/catA/a.txt"; td_ext := [".txt"];
      td_category := "catA"; td_content := CStr "text of /pair/catA/a.txt" |};
   {| td_name := "b"; td_path := "/pair/catB/b.txt"; td_ext := [".txt"];
      td_category := "catB"; td_content := CStr "text of /pair/catB/b.txt" |}].

(** What the reader class [c] extracts from the bytes of a file, for the
    classes that read a local file. *)
Definition parse (w : World) (c : ReaderClass) (b : string) : option Content :=
  match c with
  | TxtReader | DocxReader | OdtReader | PdfReader | XmlReader =>
      CStr <$> extract w c b
  | CsvMetaReader => CFrame <$> read_csv w b
  | YamlMetaReader => CYaml <$> safe_load w b
  | Reader | UrlReader => None
  end.

(** A server whose listing cannot be fetched. *)
Definition offline_world : World :=
  {| directory := λ _, None;
     file_bytes := λ _, None;
     extract := λ _ _, None;
     read_csv := λ _, None;
     safe_load := λ _, None;
     normalize_NFC := λ s, s;
     listfiles := λ _, None;
     urlopen := λ _, None;
     tmp_stem := λ n, "/tmp/tmpdoc";
     recursion_limit := 1000;
     cancelled := never |}.

(** A read of [fst step] that succeeded gave a record for that path. *)
Definition step_ok (step : string * option TextData) : Prop :=
  ∀ t, snd step = Some t → td_path t = fst step.

(** * Properties *)

(** ** The monad *)

(** Unfolding equations for the monad, and the computations that leave
    the poll counter and the trace alone. *)

Lemma bind_unfold {A B} (m : M A) (k : A → M B) st :
  (m ≫= k) st = match m st with
                | (Ok a, st') => k a st'
                | (Raise e, st') => (Raise e, st')
                end.
Proof. reflexivity. Qed.

Lemma mret_unfold {A} (a : A) st : (mret a : M A) st = (Ok a, st).
Proof. reflexivity. Qed.

Lemma poll_cancelled_unfold w st :
  poll_cancelled w st
  = (Ok (cancelled w (polls st)),
     {| tmpfiles := tmpfiles st; ntmp := ntmp st; polls := S (polls st);
        trace := trace st |}).
Proof. reflexivity. Qed.

Lemma quiet_ret {A} (a : A) : quiet (mret a).
Proof. by intros st. Qed.

Lemma quiet_raise {A} e : quiet (@raise A e).
Proof. by intros st. Qed.

Lemma quiet_bind {A B} (m : M A) (k : A → M B) :
  quiet m → (∀ a, quiet (k a)) → quiet (m ≫= k).
Proof.
  intros Hm Hk st. rewrite bind_unfold.
  destruct (Hm st) as [H1 H2]. destruct (m st) as [[a|e] st']; cbn in *.
  - destruct (Hk a st') as [H3 H4]. split; congruence.
  - done.
Qed.

Lemma quiet_lift {A} (o : option A) : quiet (lift o).
Proof. destruct o; [apply quiet_ret | apply quiet_raise]. Qed.

Lemma quiet_of_result {A} (r : result A) : quiet (of_result r).
Proof. destruct r; [apply quiet_ret | apply quiet_raise]. Qed.

Lemma quiet_open w p : quiet (open w p).
Proof.
  intros st. unfold open. destruct (tmpfiles st !! p); [done|].
  apply quiet_lift.
Qed.

Lemma quiet_NamedTemporaryFile w e : quiet (NamedTemporaryFile w e).
Proof. by intros st. Qed.

Lemma quiet_write f d : quiet (write f d).
Proof. by intros st. Qed.

Lemma quiet_os_remove f : quiet (os_remove f).
Proof. by intros st. Qed.

Create HintDb quiet.
#[local] Hint Resolve quiet_ret quiet_raise quiet_lift quiet_of_result
  quiet_open quiet_NamedTemporaryFile quiet_write quiet_os_remove : quiet.
#[local] Hint Extern 2 (quiet (_ ≫= _)) =>
  apply quiet_bind; [|intros ?] : quiet.

(** ** Strings and paths *)

Lemma str_app_cons x (a b : string) : String x a +:+ b = String x (a +:+ b).
Proof. reflexivity. Qed.

Lemma str_app_nil_l (a : string) : "" +:+ a = a.
Proof. reflexivity. Qed.

Lemma str_app_assoc (a b c : string) : (a +:+ b) +:+ c = a +:+ (b +:+ c).
Proof.
  induction a as [|x a IH]; [done|]. by rewrite !str_app_cons, IH.
Qed.

Lemma str_app_nil_r (a : string) : a +:+ "" = a.
Proof. induction a as [|x a IH]; [done|]. by rewrite str_app_cons, IH. Qed.

Lemma ascii_eqb_refl a : Str.ascii_eqb a a = true.
Proof. by apply bool_decide_eq_true_2. Qed.

Lemma endswith_char_app c a b :
  b ≠ "" → Str.endswith_char c (a +:+ b) = Str.endswith_char c b.
Proof.
  intros Hb. induction a as [|x a IH]; [done|].
  rewrite str_app_cons. cbn [Str.endswith_char].
  destruct (a +:+ b) eqn:E; [|done].
  destruct a, b; done.
Qed.

Lemma endswith_has_char c s :
  Str.endswith_char c s = true → has_char c s = true.
Proof.
  induction s as [|x s IH]; [done|]. cbn.
  destruct s as [|y s].
  - intros ->. done.
  - intros H. rewrite IH by done. by rewrite orb_true_r.
Qed.

Lemma startswith_has_char (c : ascii) s :
  Str.startswith (String c "") s = true → has_char c s = true.
Proof.
  destruct s as [|x s]; [done|]. cbn. rewrite andb_true_r.
  unfold Str.ascii_eqb. intros H%bool_decide_eq_true. subst.
  by rewrite bool_decide_eq_true_2.
Qed.

Lemma split_no_sep c s : has_char c s = false → Str.split c s = [s].
Proof.
  induction s as [|x s IH]; [done|]. cbn.
  intros [H1 H2]%orb_false_iff. rewrite H1, IH; done.
Qed.

Lemma split_app_sep c a b :
  has_char c a = false →
  Str.split c (a +:+ String c b) = a :: Str.split c b.
Proof.
  induction a as [|x a IH].
  - intros _. rewrite str_app_nil_l. cbn. by rewrite ascii_eqb_refl.
  - intros [H1 H2]%orb_false_iff. rewrite str_app_cons. cbn.
    rewrite H1, IH; done.
Qed.

Lemma split_join c l :
  l ≠ [] → Forall (λ s, has_char c s = false) l →
  Str.split c (Str.join (String c "") l) = l.
Proof.
  induction l as [|a l IH]; [done|]. intros _ Hl.
  apply Forall_cons in Hl as [Ha Hl].
  destruct l as [|b l]; cbn [Str.join].
  - by apply split_no_sep.
  - rewrite str_app_cons, str_app_nil_l, split_app_sep by done. f_equal.
    by apply IH.
Qed.

Lemma strip_prefix_app p s : Str.strip_prefix p (p +:+ s) = Some s.
Proof.
  induction p as [|x p IH]; [done|]. rewrite str_app_cons.
  cbn [Str.strip_prefix]. by rewrite ascii_eqb_refl.
Qed.

Lemma strip_last_app c d : Str.strip_last c (d +:+ String c "") = Some d.
Proof.
  induction d as [|x d IH].
  - rewrite str_app_nil_l. cbn [Str.strip_last]. by rewrite ascii_eqb_refl.
  - rewrite str_app_cons. cbn [Str.strip_last]. rewrite IH.
    by destruct (d +:+ String c "") eqn:E; [destruct d|].
Qed.

Lemma valid_name_no_slash s : valid_name s → has_char "/" s = false.
Proof. by intros [_ ?]. Qed.

Lemma join_valid a c :
  a ≠ "" → Str.endswith_char "/" a = false → valid_name c →
  PathLib.join a c = a +:+ "/" +:+ c.
Proof.
  intros Ha He [Hc Hs]. unfold PathLib.join.
  destruct (Str.startswith "/" c) eqn:E.
  { apply startswith_has_char in E. congruence. }
  unfold Str.eqb. rewrite bool_decide_eq_false_2 by done. by rewrite He.
Qed.

Lemma join_top_valid top c :
  valid_name c → PathLib.join top c = base top +:+ c.
Proof.
  intros [Hc Hs]. unfold PathLib.join, base.
  destruct (Str.startswith "/" c) eqn:E.
  { apply startswith_has_char in E. congruence. }
  destruct (_ || _); [done|]. by rewrite str_app_assoc.
Qed.

Lemma app_valid_not_empty a c : valid_name c → a +:+ c ≠ "".
Proof. intros [Hc _]. destruct a, c; done. Qed.

Lemma app_valid_endswith a c :
  valid_name c → Str.endswith_char "/" (a +:+ c) = false.
Proof.
  intros [Hc Hs]. rewrite endswith_char_app by done.
  destruct (Str.endswith_char "/" c) eqn:E; [|done].
  apply endswith_has_char in E. congruence.
Qed.

Lemma foldl_join_valid a cs :
  a ≠ "" → Str.endswith_char "/" a = false → Forall valid_name cs →
  foldl PathLib.join a cs = Str.concat (a :: ((λ c, "/" +:+ c) <$> cs)).
Proof.
  revert a. induction cs as [|c cs IH]; intros a Ha He Hcs; cbn.
  - by rewrite str_app_nil_r.
  - apply Forall_cons in Hcs as [Hc Hcs].
    rewrite join_valid by done.
    rewrite IH; [|by rewrite <- str_app_assoc; apply app_valid_not_empty
                 |by rewrite <- str_app_assoc; apply app_valid_endswith|done].
    cbn. by rewrite !str_app_assoc.
Qed.

Lemma concat_join c cs :
  Str.concat (c :: ((λ c, "/" +:+ c) <$> cs)) = Str.join "/" (c :: cs).
Proof.
  revert c. induction cs as [|c' cs IH]; intros c; cbn.
  - by rewrite str_app_nil_r.
  - f_equal. rewrite str_app_assoc. f_equal. apply (IH c').
Qed.

Lemma render_valid top c cs :
  Forall valid_name (c :: cs) →
  foldl PathLib.join top (c :: cs) = base top +:+ Str.join "/" (c :: cs).
Proof.
  intros [Hc Hcs]%Forall_cons. cbn [foldl].
  rewrite join_top_valid by done.
  rewrite foldl_join_valid;
    [|by apply app_valid_not_empty|by apply app_valid_endswith|done].
  rewrite <- concat_join. cbn. by rewrite str_app_assoc.
Qed.

Lemma render_inj top cs cs' :
  cs ≠ [] → cs' ≠ [] → Forall valid_name cs → Forall valid_name cs' →
  foldl PathLib.join top cs = foldl PathLib.join top cs' → cs = cs'.
Proof.
  intros Hn Hn' Hv Hv' Heq.
  destruct cs as [|c cs], cs' as [|c' cs']; try done.
  rewrite !render_valid in Heq by done.
  apply (inj (String.app _)) in Heq.
  rewrite <- (split_join "/" (c :: cs)), <- (split_join "/" (c' :: cs'));
    [by rewrite Heq|done|..|done|].
  all: eapply Forall_impl; [eassumption|apply valid_name_no_slash].
Qed.

Example suffix_examples :
  PathLib.suffix "/data/catA/a.txt" = ".txt"
  ∧ PathLib.suffix "/data/.hidden" = ""
  ∧ PathLib.suffix "/data/archive.tar.gz" = ".gz"
  ∧ PathLib.suffix "/data/trailing." = ""
  ∧ PathLib.name "/data/catA/a.txt" = "a.txt"
  ∧ PathLib.stem "/data/catA/a.txt" = "a"
  ∧ PathLib.parent_parts "/data/catA/a.txt" = ["/"; "data"; "catA"]
  ∧ PathLib.parent_parts "./a.txt" = []
  ∧ PathLib.suffixes "x/archive.tar.gz" = [".tar"; ".gz"].
Proof. repeat split; reflexivity. Qed.

Example fnmatch_examples :
  fnmatch ".git" ".*" = true
  ∧ fnmatch "docs" ".*" = false
  ∧ matches_any "Report.TXT" ["*.docx"; "*.txt"] = true
  ∧ matches_any "report.txt" ["*.TXT"] = false.
Proof. repeat split; reflexivity. Qed.

(** ** Readers *)

Lemma get_reader_fallback p :
  (∀ c l, c ∈ registry → ext c = Some l → PathLib.suffix p ∉ l) →
  get_reader p = {| cls := Reader; path := p |}.
Proof.
  intros H. unfold get_reader.
  destruct (List.find _ registry) as [c|] eqn:E; [|done].
  apply List.find_some in E as [Hin Hd].
  unfold declares in Hd. destruct (ext c) as [l|] eqn:El; [|done].
  apply bool_decide_eq_true in Hd.
  exfalso. eapply H; eauto. by apply list_elem_of_In.
Qed.

Lemma get_reader_yml p :
  PathLib.suffix p = ".yml" → get_reader p = {| cls := Reader; path := p |}.
Proof. intros H. unfold get_reader. by rewrite H. Qed.

Lemma path_get_reader p : path (get_reader p) = p.
Proof. unfold get_reader. by destruct (List.find _ _). Qed.

Lemma read_file_Reader w depth p st :
  read_file w depth Reader p st = (Raise NotImplementedError, st).
Proof. by destruct depth. Qed.

Lemma quiet_read_file w depth c p : quiet (read_file w depth c p).
Proof.
  revert c p. induction depth as [|depth IH]; intros c p;
    destruct c; cbn -[get_reader]; auto 10 with quiet.
Qed.

Lemma quiet_make_text_data r content : quiet (make_text_data r content).
Proof.
  unfold make_text_data, make_text_data_base.
  apply quiet_bind.
  - destruct (List.last _ _); [destruct (ext _)|]; auto with quiet.
  - intros a. destruct (cls r); auto with quiet.
Qed.

(** Readers other than [UrlReader] leave the state as it is. *)
Lemma read_file_local_state w depth c p st :
  c ≠ UrlReader → snd (read_file w depth c p st) = st.
Proof.
  intros Hc.
  destruct depth, c; try done; cbn; rewrite bind_unfold; unfold open;
    (destruct (tmpfiles st !! p);
     [|destruct (file_bytes w p); [|done]]); rewrite ?mret_unfold;
    cbn; rewrite bind_unfold;
    match goal with |- context [lift ?o] => destruct o end; done.
Qed.

Lemma read_unfold w r st :
  read w r st =
  let st0 := snd (emit (EvRead (path r)) st) in
  match read_file w (recursion_limit w) (cls r) (path r) st0 with
  | (Raise _, st') => (Ok (None, PathLib.name (path r)), st')
  | (Ok content, st') =>
      match make_text_data r content st' with
      | (Ok textdata, st'') => (Ok (Some textdata, ""), st'')
      | (Raise e, st'') => (Raise e, st'')
      end
  end.
Proof.
  unfold read. rewrite bind_unfold. cbn [emit].
  rewrite bind_unfold. unfold catch.
  destruct (read_file _ _ _ _ _) as [[content|e] st']; [|done].
  rewrite bind_unfold. by destruct (make_text_data _ _ _) as [[?|?] ?].
Qed.

Lemma read_fallback w p st :
  fst (read w {| cls := Reader; path := p |} st) = Ok (None, PathLib.name p).
Proof. rewrite read_unfold. cbn. by rewrite read_file_Reader. Qed.

Lemma read_failure_boundary w r st e :
  fst (read_file w (recursion_limit w) (cls r) (path r)
         (snd (emit (EvRead (path r)) st))) = Raise e →
  fst (read w r st) = Ok (None, PathLib.name (path r)).
Proof.
  intros H. rewrite read_unfold. cbn zeta.
  destruct (read_file _ _ _ _ _) as [[content|e'] st']; by simplify_eq/=.
Qed.

Lemma read_None_label w r st e st' :
  read w r st = (Ok (None, e), st') → e = PathLib.name (path r).
Proof.
  rewrite read_unfold. cbn zeta.
  destruct (read_file _ _ _ _ _) as [[content|ex] st1]; [|by intros [= <- _]].
  by destruct (make_text_data _ _ _) as [[?|?] ?].
Qed.

Lemma reads_of_app t1 t2 : reads_of (t1 ++ t2) = reads_of t1 ++ reads_of t2.
Proof. apply omap_app. Qed.

Lemma reports_of_app t1 t2 :
  reports_of (t1 ++ t2) = reports_of t1 ++ reports_of t2.
Proof. apply omap_app. Qed.

Lemma read_frame w r st :
  polls (snd (read w r st)) = polls st
  ∧ trace (snd (read w r st)) = trace st ++ [EvRead (path r)].
Proof.
  rewrite read_unfold. cbn zeta.
  pose proof (quiet_read_file w (recursion_limit w) (cls r) (path r)
                (snd (emit (EvRead (path r)) st))) as [H1 H2].
  destruct (read_file _ _ _ _ _) as [[content|e] st']; cbn in *; [|done].
  pose proof (quiet_make_text_data r content st') as [H3 H4].
  destruct (make_text_data _ _ _) as [[?|?] st'']; cbn in *; split; congruence.
Qed.

(** C4: a path whose suffix no registered reader declares gets the
    fallback reader, whose [read] always fails with [None] and the file's
    name as label; and for every reader, an exception raised by
    [read_file] is turned by [read] into [(None, name)] and does not
    propagate. *)
Theorem read_failure_boundary_and_fallback w st :
  (∀ p, (∀ c l, c ∈ registry → ext c = Some l → PathLib.suffix p ∉ l) →
        get_reader p = {| cls := Reader; path := p |}
        ∧ fst (read w (get_reader p) st) = Ok (None, PathLib.name p))
  ∧ (∀ r e,
       fst (read_file w (recursion_limit w) (cls r) (path r)
              (snd (emit (EvRead (path r)) st))) = Raise e →
       fst (read w r st) = Ok (None, PathLib.name (path r))).
Proof.
  split.
  - intros p Hp. rewrite (get_reader_fallback p Hp). split; [done|].
    apply read_fallback.
  - intros r e. apply read_failure_boundary.
Qed.

(** Witness for C4: an unknown suffix, and a corrupt [.docx] file. *)
Lemma read_failure_boundary_and_fallback_witness :
  (get_reader "/data/catB/notes.xyz"
   = {| cls := Reader; path := "/data/catB/notes.xyz" |}
   ∧ fst (read (demo_world never) (get_reader "/data/catB/notes.xyz")
            initial_state) = Ok (None, "notes.xyz"))
  ∧ fst (read (demo_world never)
           {| cls := DocxReader; path := "/data/catA/broken.docx" |}
           initial_state) = Ok (None, "broken.docx").
Proof.
  destruct (read_failure_boundary_and_fallback (demo_world never)
              initial_state) as [Hfallback Hboundary].
  split.
  - apply (Hfallback "/data/catB/notes.xyz").
    intros c l Hc Hl Hin.
    repeat (apply elem_of_cons in Hc as [->|Hc];
            [cbn in Hl; simplify_eq;
             by apply list_elem_of_singleton in Hin|]).
    by apply elem_of_nil in Hc.
  - apply (Hboundary {| cls := DocxReader; path := "/data/catA/broken.docx" |}
             ExtractionError).
    reflexivity.
Defined.

(** When the reader chosen for the downloaded file raises, [read_file]
    of [UrlReader] ends there and the temporary file stays behind. *)
Lemma url_read_file_failure_keeps_tempfile w depth p st name body e :
  urlopen w p = Some (name, Some body) →
  let f := tmp_stem w (ntmp st) +:+ Str.concat (PathLib.suffixes name) in
  let st1 := {| tmpfiles := <[f := body]> (<[f := ""]> (tmpfiles st));
                ntmp := S (ntmp st); polls := polls st;
                trace := trace st |} in
  cls (get_reader f) ≠ UrlReader →
  fst (read_file w depth (cls (get_reader f)) f st1) = Raise e →
  read_file w (S depth) UrlReader p st = (Raise e, st1)
  ∧ tmpfiles st1 !! f = Some body.
Proof.
  intros Hopen f st1 Hcls Hraise. split; [|apply lookup_insert_eq].
  cbn -[get_reader]. rewrite bind_unfold, Hopen. cbn -[get_reader].
  rewrite !bind_unfold. cbn -[get_reader]. fold f. fold st1.
  rewrite path_get_reader.
  pose proof (read_file_local_state w depth _ f st1 Hcls) as Hst.
  rewrite bind_unfold. unfold ret at 1. cbn match beta.
  rewrite bind_unfold. unfold write at 1. cbn match beta.
  cbn [tmpfiles ntmp polls trace]. fold st1.
  rewrite bind_unfold.
  destruct (read_file w depth (cls (get_reader f)) f st1) as [[c|e'] st2];
    cbn in *; by simplify_eq.
Qed.

(** A fetch whose downloaded copy gets the fallback reader fails, like a
    fetch that fails on the network. *)
Lemma url_read_file_fallback_raises w depth p st :
  (∀ n name body, urlopen w p = Some (name, body) →
     cls (get_reader (tmp_stem w n +:+ Str.concat (PathLib.suffixes name)))
     = Reader) →
  ∃ e, fst (read_file w depth UrlReader p st) = Raise e.
Proof.
  intros Hcopy. destruct depth as [|depth]; [by eexists|].
  cbn -[get_reader]. rewrite bind_unfold.
  destruct (urlopen w p) as [[name body]|] eqn:Hopen; [|by eexists].
  cbn -[get_reader]. rewrite bind_unfold. cbn -[get_reader].
  rewrite bind_unfold.
  destruct body as [body|]; [|by eexists].
  cbn -[get_reader]. rewrite bind_unfold. cbn -[get_reader].
  rewrite bind_unfold, path_get_reader.
  rewrite (Hcopy (ntmp st) name (Some body) eq_refl).
  rewrite read_file_Reader. by eexists.
Qed.

(** C9: the temporary file of a remote fetch is expected to be deleted
    on every exit path.  On the code [os.remove] is reached only when the
    delegated reader succeeds: for a download that does not parse, [read]
    reports the failure and the temporary file is still there; for one that
    parses, it is gone. *)
Theorem url_read_file_leaves_tempfile :
  fst (read remote_world
         {| cls := UrlReader; path := "http://host/docs/catA/broken.pdf" |}
         initial_state) = Ok (None, "broken.pdf")
  ∧ tmpfiles (snd (read remote_world
                     {| cls := UrlReader;
                        path := "http://host/docs/catA/broken.pdf" |}
                     initial_state)) !! "/tmp/tmpdoc.pdf"
    = Some "%PDF garbage"
  ∧ tmpfiles (snd (read remote_world
                     {| cls := UrlReader;
                        path := "http://host/docs/catA/a.txt" |}
                     initial_state)) !! "/tmp/tmpdoc.txt"
    = None.
Proof. split_and!; by vm_compute. Qed.

(** ** Scanner *)

Lemma dirtree_induction (P : dirtree → Prop) :
  (∀ subdirs files, Forall (λ e, P (snd e)) subdirs → P (Dir subdirs files)) →
  ∀ t, P t.
Proof.
  intros H. fix IH 1. intros [subdirs files]. apply H.
  induction subdirs as [|[d sub] l IHl]; constructor; [apply IH | apply IHl].
Qed.

Lemma list_remove_middle d pre l :
  d ∉ pre → list_remove d (pre ++ d :: l) = pre ++ l.
Proof.
  induction pre as [|y pre IH]; intros Hd; cbn.
  - unfold Str.eqb. by rewrite bool_decide_eq_true_2.
  - apply not_elem_of_cons in Hd as [Hy Hd]. unfold Str.eqb.
    rewrite bool_decide_eq_false_2 by done. by rewrite IH.
Qed.

Lemma prune_hidden_filter l :
  prune_hidden l = List.filter (λ d, negb (fnmatch d ".*")) l.
Proof.
  unfold prune_hidden.
  enough (∀ pre, Forall (λ d, fnmatch d ".*" = false) pre →
            foldl (λ remaining dirname,
                     if fnmatch dirname ".*"
                     then list_remove dirname remaining else remaining)
                  (pre ++ l) l
            = pre ++ List.filter (λ d, negb (fnmatch d ".*")) l) as H.
  { apply (H []). constructor. }
  induction l as [|d l IH]; intros pre Hpre; cbn -[fnmatch].
  - done.
  - destruct (fnmatch d ".*") eqn:Hd; cbn -[fnmatch].
    + rewrite list_remove_middle; [by apply IH|].
      intros Hin. rewrite Forall_forall in Hpre.
      specialize (Hpre d Hin). congruence.
    + rewrite (cons_middle d pre l), app_assoc. rewrite IH.
      * by rewrite <- app_assoc.
      * apply Forall_app. split; [done|]. by constructor.
Qed.

Lemma elem_of_prune_hidden d l :
  d ∈ prune_hidden l ↔ d ∈ l ∧ fnmatch d ".*" = false.
Proof.
  rewrite prune_hidden_filter, list_elem_of_In, List.filter_In,
    <- list_elem_of_In, negb_true_iff. done.
Qed.

Lemma os_walk_visits t :
  ∀ top dirpath dirnames filenames,
    (dirpath, dirnames, filenames) ∈ os_walk top t →
    ∃ ds subdirs,
      dir_at t ds (Dir subdirs filenames)
      ∧ dirpath = dirpath_of top ds
      ∧ dirnames = prune_hidden (fst <$> subdirs)
      ∧ Forall (λ d, ¬ hidden d) ds.
Proof.
  induction t as [subdirs files IH] using dirtree_induction.
  intros top dirpath dirnames filenames Hin. cbn [os_walk] in Hin.
  apply elem_of_cons in Hin as [Heq|Hin].
  { simplify_eq. exists [], subdirs. split_and!; try done. constructor. }
  set (kept := prune_hidden (fst <$> subdirs)) in *.
  assert (∀ d, d ∈ kept → ¬ hidden d) as Hkept.
  { intros d Hd%elem_of_prune_hidden. unfold hidden. destruct Hd. congruence. }
  clearbody kept.
  revert Hin.
  enough (∀ l, (∀ e, e ∈ l → e ∈ subdirs) →
            (dirpath, dirnames, filenames)
            ∈ (fix descend (l : list (string * dirtree)) :=
                 match l with
                 | [] => []
                 | (dirname, sub) :: l' =>
                     (if bool_decide (dirname ∈ kept)
                      then os_walk (PathLib.join top dirname) sub
                      else [])
                     ++ descend l'
                 end) l →
            ∃ ds subdirs',
              dir_at (Dir subdirs files) ds (Dir subdirs' filenames)
              ∧ dirpath = dirpath_of top ds
              ∧ dirnames = prune_hidden (fst <$> subdirs')
              ∧ Forall (λ d, ¬ hidden d) ds) as H by (by apply H).
  induction l as [|[d sub] l IHl]; intros Hsub Hin;
    [by apply elem_of_nil in Hin|].
  apply elem_of_app in Hin as [Hin|Hin].
  - case_bool_decide as Hd; [|by apply elem_of_nil in Hin].
    assert ((d, sub) ∈ subdirs) as Hds by (apply Hsub; left).
    rewrite Forall_forall in IH. specialize (IH _ Hds). cbn in IH.
    destruct (IH _ _ _ _ Hin) as (ds & subdirs' & H1 & H2 & H3 & H4).
    exists (d :: ds), subdirs'. split_and!; try done.
    + by econstructor.
    + constructor; [by apply Hkept|done].
  - apply IHl; [|done]. intros e He. apply Hsub. by right.
Qed.

Lemma valid_tree_subdir subdirs files d sub :
  valid_tree (Dir subdirs files) → (d, sub) ∈ subdirs →
  valid_name d ∧ valid_tree sub.
Proof.
  cbn [valid_tree]. intros [_ Hgo] Hin.
  induction subdirs as [|[d' sub'] l IH]; [by apply elem_of_nil in Hin|].
  destruct Hgo as (Hd & Hsub & Hgo).
  apply elem_of_cons in Hin as [Heq|Hin]; [by simplify_eq|by apply IH].
Qed.

Lemma dir_at_valid t ds t' :
  valid_tree t → dir_at t ds t' → Forall valid_name ds ∧ valid_tree t'.
Proof.
  intros Hv Hat. induction Hat as [t|subdirs files d sub ds t' Hin Hat IH].
  - by split.
  - destruct (valid_tree_subdir _ _ _ _ Hv Hin) as [Hd Hsub].
    destruct (IH Hsub) as [Hds Ht']. split; [by constructor|done].
Qed.

Lemma file_at_valid t ds f :
  valid_tree t → file_at t ds f → Forall valid_name (ds ++ [f]).
Proof.
  intros Hv (subdirs & files & Hat & Hf).
  destruct (dir_at_valid _ _ _ Hv Hat) as [Hds [Hfiles _]].
  apply Forall_app. split; [done|]. constructor; [|done].
  rewrite Forall_forall in Hfiles. by apply Hfiles.
Qed.

Lemma elem_of_scan w topdir t include_patterns exclude_patterns p :
  directory w topdir = Some t →
  p ∈ scan w topdir include_patterns exclude_patterns →
  ∃ ds f,
    file_at t ds f
    ∧ Forall (λ d, ¬ hidden d) ds
    ∧ keep_file include_patterns exclude_patterns f = true
    ∧ p = PathLib.join (dirpath_of topdir ds) f.
Proof.
  intros Ht. unfold scan. rewrite Ht.
  rewrite list_elem_of_In, in_flat_map.
  intros ([[dirpath dirnames] filenames] & Hin & Hp).
  apply list_elem_of_In in Hin, Hp.
  apply os_walk_visits in Hin as (ds & subdirs & Hat & -> & _ & Hds).
  apply list_elem_of_fmap in Hp as (f & -> & Hf).
  apply list_elem_of_In, List.filter_In in Hf as [Hf Hkeep].
  exists ds, f. split_and!; try done.
  exists subdirs, filenames. split; [done|]. by apply list_elem_of_In.
Qed.

(** Conversely, the walk reaches every directory whose path has no hidden
    name, so the scan finds every file there that passes the filters. *)
Lemma os_walk_reaches t ds subdirs files :
  dir_at t ds (Dir subdirs files) →
  Forall (λ d, ¬ hidden d) ds →
  ∀ top,
    (dirpath_of top ds, prune_hidden (fst <$> subdirs), files)
    ∈ os_walk top t.
Proof.
  remember (Dir subdirs files) as t' eqn:Ht'.
  intros Hat. revert subdirs files Ht'.
  induction Hat as [t|subdirs0 files0 d sub ds t' Hin Hat IH];
    intros subdirs files -> Hds top.
  { cbn. left. }
  apply Forall_cons in Hds as [Hd Hds].
  specialize (IH _ _ eq_refl Hds (PathLib.join top d)).
  cbn [os_walk]. right.
  assert (d ∈ prune_hidden (fst <$> subdirs0)) as Hkept.
  { apply elem_of_prune_hidden. split.
    - apply list_elem_of_fmap. by exists (d, sub).
    - unfold hidden in Hd. by destruct (fnmatch d ".*"). }
  revert Hkept. generalize (prune_hidden (fst <$> subdirs0)) as kept.
  intros kept Hkept.
  induction subdirs0 as [|[d' sub'] l IHl]; [by apply elem_of_nil in Hin|].
  apply elem_of_app.
  apply elem_of_cons in Hin as [Heq|Hin].
  - left. simplify_eq. by rewrite bool_decide_eq_true_2.
  - right. by apply IHl.
Qed.

Lemma scan_finds w topdir t include_patterns exclude_patterns ds f :
  directory w topdir = Some t →
  file_at t ds f →
  Forall (λ d, ¬ hidden d) ds →
  keep_file include_patterns exclude_patterns f = true →
  PathLib.join (dirpath_of topdir ds) f
  ∈ scan w topdir include_patterns exclude_patterns.
Proof.
  intros Ht (subdirs & files & Hat & Hf) Hds Hkeep.
  unfold scan. rewrite Ht.
  apply list_elem_of_In, in_flat_map.
  exists (dirpath_of topdir ds, prune_hidden (fst <$> subdirs), files).
  split.
  - apply list_elem_of_In. by apply os_walk_reaches.
  - apply list_elem_of_In, list_elem_of_fmap. exists f. split; [done|].
    apply list_elem_of_In, List.filter_In. split; [|done].
    by apply list_elem_of_In.
Qed.

(** C7: in a local scan, whatever the include and exclude patterns, the
    walk visits only directories reached through names that do not match
    [".*"], the names it keeps for descending do not match either, every
    scanned path is a file reached through such names, and (file and
    directory names being non-empty and free of separators) no file below
    a hidden directory is among the scanned paths. *)
Theorem scan_skips_hidden w topdir t include_patterns exclude_patterns :
  directory w topdir = Some t →
  (∀ dirpath dirnames filenames,
     (dirpath, dirnames, filenames) ∈ os_walk topdir t →
     (∃ ds subdirs, dir_at t ds (Dir subdirs filenames)
                    ∧ dirpath = dirpath_of topdir ds
                    ∧ Forall (λ d, ¬ hidden d) ds)
     ∧ Forall (λ d, ¬ hidden d) dirnames)
  ∧ (∀ p, p ∈ scan w topdir include_patterns exclude_patterns →
       ∃ ds f, file_at t ds f ∧ Forall (λ d, ¬ hidden d) ds
               ∧ p = PathLib.join (dirpath_of topdir ds) f)
  ∧ (valid_tree t →
     ∀ ds f, file_at t ds f → Exists hidden ds →
       PathLib.join (dirpath_of topdir ds) f
       ∉ scan w topdir include_patterns exclude_patterns).
Proof.
  intros Ht. split_and!.
  - intros dirpath dirnames filenames Hin.
    apply os_walk_visits in Hin as (ds & subdirs & Hat & Hp & Hn & Hds).
    split; [by eauto|].
    subst dirnames. apply Forall_forall.
    intros d Hd%elem_of_prune_hidden. unfold hidden. destruct Hd. congruence.
  - intros p Hp.
    destruct (elem_of_scan _ _ _ _ _ _ Ht Hp) as (ds & f & ? & ? & ? & ?).
    by eauto.
  - intros Hv ds f Hat Hex Hp.
    destruct (elem_of_scan _ _ _ _ _ _ Ht Hp)
      as (ds' & f' & Hat' & Hds' & _ & Heq).
    assert (ds ++ [f] = ds' ++ [f']) as Hcs.
    { apply (render_inj topdir).
      - by destruct ds.
      - by destruct ds'.
      - by apply (file_at_valid t).
      - by apply (file_at_valid t).
      - unfold dirpath_of in Heq. by rewrite !foldl_app. }
    apply app_inj_tail in Hcs as [-> ->].
    apply Exists_exists in Hex as (d & Hd & Hh).
    rewrite Forall_forall in Hds'. by apply (Hds' d).
Qed.

(** Witness for C7: the file under [.git] is not scanned, whatever the
    patterns. *)
Lemma scan_skips_hidden_witness :
  PathLib.join (dirpath_of "/data/" [".git"]) "config.txt"
  ∉ scan (demo_world never) "/data/" ["*"] [].
Proof.
  destruct (scan_skips_hidden (demo_world never) "/data/" demo_tree ["*"] [])
    as (_ & _ & Hhidden); [reflexivity|].
  apply Hhidden.
  - cbn. repeat split; repeat constructor; done.
  - exists [], ["config.txt"]. split; [|by left].
    eapply dir_below; [|apply dir_here]. right. left.
  - left. reflexivity.
Defined.

(** ** The reading phases *)

Lemma path_reader_for self p : path (reader_for self p) = p.
Proof.
  unfold reader_for, get_reader. destruct (is_url self); [done|].
  by destruct (List.find _ _).
Qed.

Section loops.
Context (w : World) (self : ImportDocuments).

Lemma loop_post_shape {A B} paths st (r : result (option A))
    (r' : result (option B)) st' :
  shape r = shape r' →
  loop_post w paths st (r, st') → loop_post w paths st (r', st').
Proof.
  intros Hs (I1 & I2 & I3 & I4 & I5 & I6). cbn in *.
  unfold loop_post; cbn. split_and!; try done.
  - intros j Hj Hc. destruct (I3 j Hj Hc) as [-> ?].
    by destruct r' as [[?|]|?].
  - intros ->. apply I4. by destruct r as [[?|]|?].
  - intros [x ->]. apply I5. destruct r as [[?|]|?]; by eauto.
  - rewrite I6. do 3 f_equal. by destruct r as [[?|]|?], r' as [[?|]|?].
Qed.

Lemma read_text_loop_post n_paths paths text_data errors batch st :
  loop_post w paths st
    (read_text_loop w self n_paths paths text_data errors batch st).
Proof.
  revert text_data errors batch st.
  induction paths as [|p paths IH]; intros text_data errors batch st.
  { cbn. unfold loop_post; cbn. rewrite Nat.sub_diag, app_nil_r.
    split_and!; try done; try lia. }
  cbn [read_text_loop]. rewrite bind_unfold.
  set (pre := if _ && _ then _ else _).
  assert (∃ b st0, pre st = (Ok b, st0) ∧ polls st0 = polls st
                   ∧ reads_of (trace st0) = reads_of (trace st))
    as (b & st0 & -> & Hp0 & Ht0).
  { subst pre. destruct (_ && _).
    - eexists _, _. split; [reflexivity|]. cbn. split; [done|].
      rewrite reads_of_app. cbn. by rewrite app_nil_r.
    - by eexists _, _. }
  rewrite bind_unfold.
  pose proof (read_frame w (reader_for self p) st0) as [Hp1 Ht1].
  rewrite path_reader_for in Ht1.
  destruct (read w (reader_for self p) st0) as [[r|e] st1]; cbn in Hp1, Ht1.
  2:{ unfold loop_post; cbn. rewrite Hp1, Hp0, Nat.sub_diag.
      split_and!; try done; try lia.
      - by intros [x ?].
      - rewrite Ht1, reads_of_app, Ht0. cbn. by rewrite take_0. }
  destruct (match fst r with Some _ => _ | None => _ end)
    as [[text_data' errors'] batch'].
  rewrite bind_unfold. cbn [poll_cancelled].
  destruct (cancelled w (polls st1)) eqn:Hc.
  - unfold loop_post; cbn. rewrite Hp1, Hp0.
    replace (S (polls st) - polls st) with 1 by lia.
    split_and!; try done; try lia.
    + intros j [? ?] _. assert (j = polls st) by lia. by subst.
    + intros _. exists (polls st). by rewrite <- Hp0, <- Hp1.
    + by intros [x ?].
    + rewrite Ht1, reads_of_app, Ht0. cbn. by rewrite take_0.
  - match goal with |- loop_post _ _ _ (read_text_loop _ _ _ _ ?a ?b ?c ?s) =>
      specialize (IH a b c s); set (out := read_text_loop _ _ _ _ a b c s) in *
    end.
    destruct IH as (I1 & I2 & I3 & I4 & I5 & I6). cbn in I1, I2, I3, I4, I5, I6.
    rewrite Hp1, Hp0 in *.
    unfold loop_post. cbn [length].
    split_and!; try lia.
    + intros j [? ?] Hj. destruct (decide (j = polls st)) as [->|]; [congruence|].
      apply I3; [lia|done].
    + intros Hn. destruct (I4 Hn) as (j & ? & ? & ?). exists j.
      split_and!; [done|lia|done].
    + intros Hx. specialize (I5 Hx). lia.
    + rewrite I6, Ht1, reads_of_app, Ht0. cbn. rewrite <- app_assoc. cbn.
      do 2 f_equal.
      replace (polls out.2 - polls st + raised out.1)
        with (S (polls out.2 - S (polls st) + raised out.1)) by lia.
      done.
Qed.

Lemma read_meta_loop_post paths meta_dfs errors st :
  loop_post w paths st (read_meta_loop w self paths meta_dfs errors st).
Proof.
  revert meta_dfs errors st.
  induction paths as [|p paths IH]; intros meta_dfs errors st.
  { cbn. unfold loop_post; cbn. rewrite Nat.sub_diag, app_nil_r.
    split_and!; try done; try lia. }
  cbn [read_meta_loop]. rewrite bind_unfold.
  pose proof (read_frame w (reader_for self p) st) as [Hp1 Ht1].
  rewrite path_reader_for in Ht1.
  destruct (read w (reader_for self p) st) as [[r|e] st1]; cbn in Hp1, Ht1.
  2:{ unfold loop_post; cbn. rewrite Hp1, Nat.sub_diag.
      split_and!; try done; try lia.
      - by intros [x ?].
      - rewrite Ht1, reads_of_app. cbn. by rewrite take_0. }
  destruct (match fst r with Some _ => _ | None => _ end)
    as [meta_dfs' errors'].
  rewrite bind_unfold. cbn [poll_cancelled].
  destruct (cancelled w (polls st1)) eqn:Hc.
  - unfold loop_post; cbn. rewrite Hp1.
    replace (S (polls st) - polls st) with 1 by lia.
    split_and!; try done; try lia.
    + intros j [? ?] _. assert (j = polls st) by lia. by subst.
    + intros _. exists (polls st). by rewrite <- Hp1.
    + by intros [x ?].
    + rewrite Ht1, reads_of_app. cbn. by rewrite take_0.
  - match goal with |- loop_post _ _ _ (read_meta_loop _ _ _ ?a ?b ?s) =>
      specialize (IH a b s); set (out := read_meta_loop _ _ _ a b s) in *
    end.
    destruct IH as (I1 & I2 & I3 & I4 & I5 & I6). cbn in I1, I2, I3, I4, I5, I6.
    rewrite Hp1 in *.
    unfold loop_post. cbn [length].
    split_and!; try lia.
    + intros j [? ?] Hj. destruct (decide (j = polls st)) as [->|]; [congruence|].
      apply I3; [lia|done].
    + intros Hn. destruct (I4 Hn) as (j & ? & ? & ?). exists j.
      split_and!; [done|lia|done].
    + intros Hx. specialize (I5 Hx). lia.
    + rewrite I6, Ht1, reads_of_app. cbn. rewrite <- app_assoc. cbn.
      do 2 f_equal.
      replace (polls out.2 - polls st + raised out.1)
        with (S (polls out.2 - S (polls st) + raised out.1)) by lia.
      done.
Qed.


Lemma _read_text_data_post st :
  loop_post w (scan_for w self (text_patterns self)) st (_read_text_data w self st).
Proof.
  unfold _read_text_data. fold (text_patterns self).
  destruct (length (scan_for w self (text_patterns self)) =? 0)%nat eqn:E.
  - apply Nat.eqb_eq, nil_length_inv in E. rewrite E.
    unfold loop_post; cbn. rewrite Nat.sub_diag, app_nil_r.
    split_and!; try done; try lia.
  - apply read_text_loop_post.
Qed.

Lemma _read_meta_data_post st :
  loop_post w (scan_for w self meta_patterns) st (_read_meta_data w self st).
Proof.
  unfold _read_meta_data. fold meta_patterns. rewrite bind_unfold.
  pose proof (read_meta_loop_post (scan_for w self meta_patterns) [] [] st)
    as H.
  destruct (read_meta_loop _ _ _ _ _ _) as [[[[meta_dfs errors]|]|e] st'];
    [|by eapply loop_post_shape, H..].
  destruct meta_dfs as [|c meta_dfs]; [by eapply loop_post_shape, H|].
  rewrite bind_unfold.
  destruct (pd_concat _) as [df|e]; [by eapply loop_post_shape, H|].
  destruct H as (I1 & I2 & I3 & I4 & I5 & I6). cbn in I1, I2, I3, I4, I5, I6.
  unfold loop_post; cbn.
  specialize (I5 ltac:(eauto)).
  split_and!; try done.
  + intros j Hj Hc. by destruct (I3 j Hj Hc).
  + rewrite I6, I5, Nat.add_0_r. rewrite !firstn_all2; [done|lia..].
Qed.
End loops.

Lemma loop_nil w self n_paths text_data errors batch st :
  read_text_loop w self n_paths [] text_data errors batch st
  = (Ok (Some (text_data, errors)), st).
Proof. reflexivity. Qed.

Lemma read_text_loop_events w self n_paths paths :
  report_progress self = true →
  ∀ text_data errors pending st r st',
    read_text_loop w self n_paths paths text_data errors (batch_of pending) st
    = (Ok r, st') →
    ∃ steps,
      trace st' = trace st ++ loop_events n_paths text_data pending steps
      ∧ fst <$> steps `prefix_of` paths
      ∧ ∀ text_data' errors', r = Some (text_data', errors') →
          fst <$> steps = paths
          ∧ text_data' = text_data ++ omap snd steps
          ∧ errors' = errors ++ omap failure steps.
Proof.
  intros Hsink. induction paths as [|p paths IH];
    intros text_data errors pending st r st' Hrun.
  { rewrite loop_nil in Hrun. simplify_eq. exists []. cbn.
    rewrite !app_nil_r. split_and!; [done..|].
    by intros ?? [= <- <-]. }
  cbn [read_text_loop] in Hrun. rewrite Hsink, andb_true_r in Hrun.
  rewrite bind_unfold in Hrun.
  set (note := {| progress := (length text_data, n_paths); lastpath := p;
                  batch := deref text_data <$> batch_of pending |}) in *.
  set (st0 := if pending then snd (emit (EvProgress note) st) else st).
  assert ((if (length (batch_of pending) =? 1)%nat
           then emit (EvProgress note) ≫= λ _ : (), mret []
           else mret (batch_of pending)) st = (Ok [], st0)) as Hpre.
  { subst st0. by destruct pending. }
  rewrite Hpre in Hrun. clear Hpre.
  rewrite bind_unfold in Hrun.
  pose proof (read_frame w (reader_for self p) st0) as [Hp1 Ht1].
  rewrite path_reader_for in Ht1.
  destruct (read w (reader_for self p) st0) as [[[outcome e]|ex] st1] eqn:Hread;
    [|done]. cbn [fst snd] in *.
  assert (trace st1
          = trace st ++ (if pending then [EvProgress note] else [])
              ++ [EvRead p]) as Htrace.
  { rewrite Ht1. subst st0. destruct pending; cbn; [|done].
    by rewrite <- app_assoc. }
  assert (outcome = None → e = PathLib.name p) as He.
  { intros ->. apply read_None_label in Hread.
    by rewrite path_reader_for in Hread. }
  clear Hread.
  destruct outcome as [text|].
  - rewrite bind_unfold, poll_cancelled_unfold in Hrun.
    destruct (cancelled w (polls st1)).
    + rewrite mret_unfold in Hrun. simplify_eq. exists [(p, Some text)]. cbn.
      split_and!; [|by eexists|done].
      rewrite Htrace. by destruct pending.
    + apply (IH _ _ true) in Hrun as (steps & Htr & Hpre & Hres).
      exists ((p, Some text) :: steps). cbn [loop_events].
      split_and!.
      * rewrite Htr. cbn [trace]. rewrite Htrace, <- !app_assoc.
        by destruct pending.
      * cbn. by apply prefix_cons.
      * intros td' errs' Hr. destruct (Hres _ _ Hr) as (H1 & H2 & H3).
        cbn. by rewrite H1, H2, H3, <- app_assoc.
  - rewrite bind_unfold, poll_cancelled_unfold in Hrun.
    destruct (cancelled w (polls st1)).
    + rewrite mret_unfold in Hrun. simplify_eq. exists [(p, None)]. cbn.
      split_and!; [|by eexists|done].
      rewrite Htrace. by destruct pending.
    + apply (IH _ _ false) in Hrun as (steps & Htr & Hpre & Hres).
      exists ((p, None) :: steps). cbn [loop_events].
      split_and!.
      * rewrite Htr. cbn [trace]. rewrite Htrace, <- !app_assoc.
        by destruct pending.
      * cbn. by apply prefix_cons.
      * intros td' errs' Hr. destruct (Hres _ _ Hr) as (H1 & H2 & H3).
        cbn. rewrite H1, H2, H3, <- app_assoc. by rewrite He.
Qed.

Lemma read_text_loop_silent w self n_paths paths :
  report_progress self = false →
  ∀ text_data errors batch st,
    reports_of (trace (snd (read_text_loop w self n_paths paths text_data
                              errors batch st)))
    = reports_of (trace st).
Proof.
  intros Hsink. induction paths as [|p paths IH];
    intros text_data errors batch st; [done|].
  cbn [read_text_loop]. rewrite Hsink, andb_false_r.
  rewrite bind_unfold, mret_unfold, bind_unfold.
  pose proof (read_frame w (reader_for self p) st) as [_ Ht1].
  destruct (read w (reader_for self p) st) as [[r|ex] st1]; cbn [snd] in *.
  2:{ rewrite Ht1, reports_of_app. cbn. by rewrite app_nil_r. }
  destruct (match fst r with Some _ => _ | None => _ end)
    as [[text_data' errors'] batch'].
  rewrite bind_unfold, poll_cancelled_unfold.
  destruct (cancelled w (polls st1)).
  - rewrite mret_unfold. cbn. rewrite Ht1, reports_of_app. cbn.
    by rewrite app_nil_r.
  - rewrite IH. cbn. rewrite Ht1, reports_of_app. cbn. by rewrite app_nil_r.
Qed.

(** Nothing is reported after the last read. *)
Lemma loop_events_last n_paths text_data pending steps :
  steps ≠ [] →
  ∃ p, last (loop_events n_paths text_data pending steps) = Some (EvRead p).
Proof.
  revert text_data pending.
  induction steps as [|[p outcome] steps IH]; intros text_data pending Hne;
    [done|].
  cbn [loop_events]. rewrite last_app.
  destruct steps as [|step steps].
  - exists p. by destruct outcome.
  - destruct outcome as [text|].
    + destruct (IH (text_data ++ [text]) true ltac:(done)) as [q Hq].
      exists q. rewrite last_cons, Hq. done.
    + destruct (IH text_data false ltac:(done)) as [q Hq].
      exists q. rewrite last_cons, Hq. done.
Qed.

(** C8 (amended): with a callback, the events of the reading loop are
    those of [loop_events]: a notification is sent before a path is read,
    exactly when the read before it succeeded, and carries the number of
    documents read so far over the number of candidates, the path about to
    be read, and the batch; the last event is a read, so nothing is sent
    after the last document.  Without a callback nothing is sent. *)
Theorem progress_reported_before_next_read w self st :
  let paths := scan_for w self (text_patterns self) in
  let out := _read_text_data w self st in
  (report_progress self = true →
   ∀ r, fst out = Ok r →
     ∃ steps,
       trace (snd out)
       = trace st ++ loop_events (length paths) [] false steps
       ∧ fst <$> steps `prefix_of` paths
       ∧ (steps ≠ [] → ∃ p, last (trace (snd out)) = Some (EvRead p))
       ∧ ∀ text_data errors, r = Some (text_data, errors) →
           fst <$> steps = paths
           ∧ text_data = omap snd steps
           ∧ errors = omap failure steps)
  ∧ (report_progress self = false →
     reports_of (trace (snd out)) = reports_of (trace st)).
Proof.
  intros paths out. subst out. unfold _read_text_data.
  fold (text_patterns self). fold paths.
  destruct (length paths =? 0)%nat eqn:E.
  { split; [|done]. intros _ r Hr. done. }
  split.
  - intros Hsink r Hr.
    destruct (read_text_loop w self (length paths) paths [] [] [] st)
      as [r' st'] eqn:Hrun. cbn in Hr. subst r'.
    apply (read_text_loop_events w self _ _ Hsink [] [] false) in Hrun
      as (steps & Htr & Hpre & Hres).
    exists steps. cbn [snd]. split_and!; [done..| |done].
    intros Hne. rewrite Htr, last_app.
    destruct (loop_events_last (length paths) [] false steps Hne) as [p ->].
    by exists p.
  - intros Hsink. by apply read_text_loop_silent.
Qed.

(** Witness for C8 (amended): the folder of two documents. *)
Lemma progress_reported_before_next_read_witness :
  ∃ steps,
    trace (snd (_read_text_data (demo_world never) pair initial_state))
    = trace initial_state ++ loop_events 2 [] false steps
    ∧ fst <$> steps = ["/pair/catA/a.txt"; "/pair/catB/b.txt"].
Proof.
  destruct (progress_reported_before_next_read (demo_world never) pair
              initial_state) as [Hsink _].
  destruct (Hsink eq_refl (Some (pair_batch, []))) as (steps & Htr & _ & _ & Hres).
  { by vm_compute. }
  exists steps. split; [exact Htr|].
  by destruct (Hres pair_batch [] eq_refl) as (-> & _).
Defined.

(** Counter-example to C8 as worded: both documents of the folder are
    read successfully, yet no notification follows the read of the second,
    and the one that follows the read of the first names the second path. *)
Lemma progress_not_after_each_read :
  (∃ a b, fst (_read_text_data (demo_world never) pair initial_state)
          = Ok (Some ([a; b], [])))
  ∧ ¬ reported_after_each_read
        (trace (snd (_read_text_data (demo_world never) pair initial_state))).
Proof.
  split.
  - by eexists _, _; vm_compute.
  - intros H. destruct (H 0 "/pair/catA/a.txt") as (n & Hn & Hp).
    + by vm_compute.
    + vm_compute in Hn. injection Hn as <-. discriminate.
Qed.

(** C10 (amended): a scanned path with suffix [.yml] has no registered
    reader.  In local mode it gets the fallback reader; over a URL it is
    handed to [UrlReader], and the reader of the downloaded copy is chosen
    by the file name the server suggests.  In local mode, and over a URL
    whenever the downloaded copy gets the fallback reader too, [read]
    fails with the file's name as label, and the iteration of the metadata
    loop leaves the collected tables as they are and appends exactly that
    one label to the error list. *)
Theorem yml_dispatched_to_fallback w self p paths meta_dfs errors st :
  PathLib.suffix p = ".yml" →
  (is_url self = true →
   ∀ n name body, urlopen w p = Some (name, body) →
     cls (get_reader (tmp_stem w n +:+ Str.concat (PathLib.suffixes name)))
     = Reader) →
  (is_url self = false → reader_for self p = {| cls := Reader; path := p |})
  ∧ ∃ st',
      read w (reader_for self p) st = (Ok (None, PathLib.name p), st')
      ∧ read_meta_loop w self (p :: paths) meta_dfs errors st
        = (c ← poll_cancelled w;
           if c : bool then mret None
           else read_meta_loop w self paths meta_dfs
                  (errors ++ [PathLib.name p])) st'.
Proof.
  intros Hsuffix Hcopy.
  assert (is_url self = false →
          reader_for self p = {| cls := Reader; path := p |}) as Hlocal.
  { intros Hl. unfold reader_for. rewrite Hl. by apply get_reader_yml. }
  split; [done|].
  assert (∃ e, fst (read_file w (recursion_limit w)
                      (cls (reader_for self p)) (path (reader_for self p))
                      (snd (emit (EvRead (path (reader_for self p))) st)))
               = Raise e) as [e He].
  { destruct (is_url self) eqn:Hu.
    - unfold reader_for. rewrite Hu. cbn [cls path].
      apply url_read_file_fallback_raises. by apply Hcopy.
    - rewrite (Hlocal eq_refl). cbn [cls path].
      rewrite read_file_Reader. by eexists. }
  assert (∃ st', read w (reader_for self p) st
                 = (Ok (None, PathLib.name p), st')) as [st' Hread].
  { rewrite read_unfold. cbn zeta.
    destruct (read_file _ _ _ _ _) as [[c|e'] st1]; [done|].
    rewrite path_reader_for. by eexists. }
  exists st'. split; [done|].
  cbn [read_meta_loop]. by rewrite bind_unfold, Hread.
Qed.

(** Witness for C10 (amended): the [meta.yml] of the demo folder. *)
Lemma yml_dispatched_to_fallback_witness :
  reader_for demo "/data/catB/meta.yml"
  = {| cls := Reader; path := "/data/catB/meta.yml" |}
  ∧ ∃ st',
      read (demo_world never) (reader_for demo "/data/catB/meta.yml")
        initial_state = (Ok (None, "meta.yml"), st')
      ∧ read_meta_loop (demo_world never) demo
          ["/data/catB/meta.yml"; "/data/catB/meta.csv"] [] [] initial_state
        = (c ← poll_cancelled (demo_world never);
           if c : bool then mret None
           else read_meta_loop (demo_world never) demo
                  ["/data/catB/meta.csv"] [] ([] ++ ["meta.yml"])) st'.
Proof.
  destruct (yml_dispatched_to_fallback (demo_world never) demo
              "/data/catB/meta.yml" ["/data/catB/meta.csv"] [] []
              initial_state) as [Hlocal Hstep].
  - reflexivity.
  - intros Hremote. discriminate Hremote.
  - split; [by apply Hlocal|exact Hstep].
Defined.

(** Counter-example to C10 as worded: over a URL a scanned [.yml] file
    goes to [UrlReader], not to the fallback reader; when the server names
    the download [meta.yaml] the YAML reader parses it, and the file gives
    one row and no error. *)
Lemma yml_over_url_read_as_yaml :
  "http://host/docs/meta.yml" ∈ scan_for remote_world remote meta_patterns
  ∧ PathLib.suffix "http://host/docs/meta.yml" = ".yml"
  ∧ reader_for remote "http://host/docs/meta.yml"
    ≠ {| cls := Reader; path := "http://host/docs/meta.yml" |}
  ∧ fst (_read_meta_data remote_world remote initial_state)
    = Ok (Some (Some {| nrows := 1; columns := [("author", [Val "cy"])] |},
                [])).
Proof.
  split_and!.
  - apply list_elem_of_In. vm_compute. tauto.
  - by vm_compute.
  - by vm_compute.
  - by vm_compute.
Qed.

(** ** Corpus assembly *)

Lemma to_val_elem var s : s ∈ dv_values var → is_Some (to_val var s).
Proof.
  intros Hin. unfold to_val.
  destruct (list_find (λ v, v = s) (dv_values var)) as [[i v]|] eqn:E; [by eexists|].
  apply list_find_None in E. rewrite Forall_forall in E. by destruct (E s Hin).
Qed.

Lemma corpus_rows_length w var text_data rows :
  corpus_rows w var text_data = Ok rows → length rows = length text_data.
Proof.
  revert rows. induction text_data as [|t l IH]; intros rows; cbn.
  - by intros [= <-].
  - destruct (corpus_row w var t); [|done].
    destruct (corpus_rows w var l); [|done].
    intros [= <-]. cbn. f_equal. by apply IH.
Qed.

Lemma corpus_rows_total w var text_data :
  Forall is_text text_data →
  Forall (λ t, td_category t ∈ dv_values var) text_data →
  ∃ rows, corpus_rows w var text_data = Ok rows.
Proof.
  induction text_data as [|t l IH]; intros Ht Hc; cbn; [by eexists|].
  apply Forall_cons in Ht as [[s Hs] Ht]. apply Forall_cons in Hc as [Hv Hc].
  destruct (IH Ht Hc) as [rows ->].
  unfold corpus_row. rewrite Hs.
  destruct (to_val_elem _ _ Hv) as [v ->]. by eexists.
Qed.

(** C5: the assembled corpus has the categorical [category] column
    exactly when the batch holds more than one distinct category; with one
    category the class variables and the class column are empty, and an
    empty batch gives no corpus at all.  A non-empty batch of text
    documents does give a corpus. *)
Theorem create_corpus_category_column w text_data :
  (∀ corpus, _create_corpus w text_data = Ok (Some corpus) →
     if decide (1 < size (categories text_data))
     then class_vars corpus = [category_variable text_data]
          ∧ Forall (λ row, length row = 1) (Y corpus)
     else class_vars corpus = [] ∧ Forall (λ row, row = []) (Y corpus))
  ∧ (text_data ≠ [] → Forall is_text text_data →
     ∃ corpus, _create_corpus w text_data = Ok (Some corpus))
  ∧ _create_corpus w [] = Ok None.
Proof.
  split_and!; [| |done].
  - intros corpus. unfold _create_corpus.
    destruct (corpus_rows _ _ _) as [rows|]; [|done].
    unfold text_categories. fold (categories text_data).
    change (length (elements (categories text_data)))
      with (size (categories text_data)).
    destruct (decide (1 < size (categories text_data))) as [Hlt|Hge].
    + apply Nat.ltb_lt in Hlt as ->.
      destruct (0 <? _)%nat; [|done]. intros [= <-]. cbn. split; [done|].
      apply Forall_fmap, Forall_true. done.
    + apply Nat.ltb_nlt in Hge as ->.
      destruct (0 <? _)%nat; [|done]. intros [= <-]. cbn. split; [done|].
      apply Forall_fmap, Forall_true. done.
  - intros Hne Ht. unfold _create_corpus.
    destruct (corpus_rows_total w
                {| dv_name := "category";
                   dv_values := text_categories text_data |} text_data Ht)
      as [rows Hrows].
    { apply Forall_forall. intros t Hin. cbn. unfold text_categories.
      apply elem_of_elements, elem_of_list_to_set, list_elem_of_fmap. by eauto. }
    rewrite Hrows.
    apply corpus_rows_length in Hrows.
    destruct (1 <? _)%nat; rewrite length_fmap, Hrows;
      (destruct text_data; [done|]); cbn; by eexists.
Qed.

(** Witness for C5: two documents in two categories. *)
Lemma create_corpus_category_column_witness :
  ∃ corpus,
    _create_corpus (demo_world never) pair_batch = Ok (Some corpus)
    ∧ class_vars corpus = [category_variable pair_batch]
    ∧ Forall (λ row, length row = 1) (Y corpus).
Proof.
  destruct (create_corpus_category_column (demo_world never) pair_batch)
    as (Hcolumn & Htotal & _).
  destruct Htotal as [corpus Hcorpus]; [done| |].
  { repeat constructor; by eexists. }
  exists corpus. split; [done|].
  specialize (Hcolumn corpus Hcorpus).
  destruct (decide (1 < size (categories pair_batch))) as [_|Hn]; [done|].
  exfalso. apply Hn. vm_compute. lia.
Defined.

(** ** Metadata join *)

Lemma get_loc_cons k index label :
  get_loc (k :: index) label
  = if decide (k = label) then Some 0 else S <$> get_loc index label.
Proof.
  unfold get_loc. cbn. destruct (decide (k = label)); [done|].
  by destruct (list_find _ index) as [[i x]|].
Qed.

(** [get_loc] finds the first row carrying the label. *)
Lemma get_loc_Some index label i :
  get_loc index label = Some i ↔
  index !! i = Some label ∧ ∀ j, j < i → index !! j ≠ Some label.
Proof.
  unfold get_loc. split.
  - destruct (list_find _ index) as [[i' x]|] eqn:E; [|done].
    intros [= <-]. apply list_find_Some in E as (H1 & -> & H3).
    split; [done|]. intros j Hj Hl. by eapply H3.
  - intros [H1 H2].
    assert (list_find (λ k, k = label) index = Some (i, label)) as ->; [|done].
    apply list_find_Some. split_and!; [done..|].
    intros j y Hy Hj ->. by eapply H2.
Qed.

Lemma get_loc_None index label : get_loc index label = None ↔ label ∉ index.
Proof.
  unfold get_loc. destruct (list_find _ index) as [[i x]|] eqn:E; cbn.
  - apply list_find_Some in E as (H1 & -> & _).
    split; [done|]. intros Hn. destruct Hn. by eapply list_elem_of_lookup_2.
  - apply list_find_None in E. split; [|done]. intros _ Hin.
    rewrite Forall_forall in E. by apply (E label).
Qed.

Lemma reindex_cell_cons k index v values label :
  reindex_cell (k :: index) (v :: values) label
  = if decide (k = label) then v else reindex_cell index values label.
Proof.
  unfold reindex_cell. rewrite get_loc_cons.
  destruct (decide (k = label)); [done|].
  by destruct (get_loc index label).
Qed.

Lemma reindex_cell_nil_values index label : reindex_cell index [] label = NaN.
Proof. unfold reindex_cell. by destruct (get_loc index label). Qed.

Lemma reindex_cell_drop_duplicates seen index values label :
  label ∉ seen →
  reindex_cell (drop_masked (duplicated_from seen index) index)
               (drop_masked (duplicated_from seen index) values) label
  = reindex_cell index values label.
Proof.
  revert seen values. induction index as [|k index IH]; intros seen values Hl.
  { cbn. destruct values; by rewrite ?reindex_cell_nil_values. }
  cbn [duplicated_from]. destruct values as [|v values].
  { cbn. by rewrite !reindex_cell_nil_values. }
  cbn [drop_masked]. case_bool_decide as Hk.
  - rewrite reindex_cell_cons.
    destruct (decide (k = label)) as [->|Hne]; [done|].
    apply IH. by apply not_elem_of_cons.
  - rewrite !reindex_cell_cons.
    destruct (decide (k = label)) as [->|Hne]; [done|].
    apply IH. by apply not_elem_of_cons.
Qed.

Lemma drop_duplicates_NoDup seen index :
  NoDup (drop_masked (duplicated_from seen index) index)
  ∧ (∀ k, k ∈ drop_masked (duplicated_from seen index) index →
          (k ∉ seen) ∧ (k ∈ index)).
Proof.
  revert seen. induction index as [|k index IH]; intros seen.
  { cbn. split; [constructor|]. by intros k ?%elem_of_nil. }
  cbn [duplicated_from drop_masked].
  destruct (IH (k :: seen)) as [Hnd Hin].
  case_bool_decide as Hk.
  - split; [done|]. intros k' Hk'. destruct (Hin k' Hk') as [Hn He].
    apply not_elem_of_cons in Hn as [? ?]. split; [done|by right].
  - split.
    + constructor; [|done]. intros Hk'. destruct (Hin k Hk') as [Hn _].
      apply Hn. by left.
    + intros k' [->|Hk']%elem_of_cons; [split; [done|by left]|].
      destruct (Hin k' Hk') as [Hn He].
      apply not_elem_of_cons in Hn as [? ?]. split; [done|by right].
Qed.

Lemma filtered_columns_first_occurrence self df path_column :
  filtered_columns self df path_column
  = (λ col, (fst col, reindex_column (join_index self df) path_column
                        (snd col))) <$> columns df.
Proof.
  unfold filtered_columns.
  destruct (negb _); [|done].
  rewrite <- list_fmap_compose. apply list_fmap_ext. intros i [name values] _.
  cbn. f_equal. unfold reindex_column.
  apply list_fmap_ext. intros r label _.
  apply reindex_cell_drop_duplicates, not_elem_of_nil.
Qed.

Lemma parse_index_str_of_nat n : parse_index (str_of_nat n) = Some n.
Proof.
  unfold parse_index, str_of_nat.
  rewrite NilEmpty.usu. cbn. rewrite DecimalNat.Unsigned.of_to.
  unfold Str.eqb. case_bool_decide as E; [|done].
  exfalso.
  assert (NilEmpty.uint_of_string (NilEmpty.string_of_uint (Nat.to_uint n))
          = Some Decimal.Nil) as H by (by rewrite E).
  rewrite NilEmpty.usu in H. injection H as H.
  assert (n = 0) as -> by (by rewrite <- (DecimalNat.Unsigned.of_to n), H).
  done.
Qed.

Lemma index_of_indexed name k :
  index_of name (name +:+ " (" +:+ str_of_nat k +:+ ")") = Some k.
Proof.
  unfold index_of.
  rewrite <- (str_app_assoc name " ("), strip_prefix_app. cbn.
  rewrite strip_last_app. cbn. apply parse_index_str_of_nat.
Qed.

Lemma le_foldr_max (x : nat) l : x ∈ l → x ≤ foldr Nat.max 0 l.
Proof.
  induction l as [|y l IH]; [by intros ?%elem_of_nil|].
  intros [->|Hin]%elem_of_cons; cbn; [lia|]. specialize (IH Hin). lia.
Qed.

Lemma get_unique_names_fresh names proposed :
  get_unique_names names proposed ∉ names.
Proof.
  unfold get_unique_names.
  destruct (negb _ && _) eqn:E.
  - apply andb_true_iff in E as [E _].
    by apply negb_true_iff, bool_decide_eq_false in E.
  - clear E. intros Hin.
    set (indices := get_indices names proposed) in *.
    set (k := match indices with [] => 1 | _ => S (foldr Nat.max 0 indices) end)
      in *.
    assert (k ∈ indices) as Hk.
    { unfold indices, get_indices. apply list_elem_of_omap.
      eexists. split; [exact Hin|]. apply index_of_indexed. }
    apply le_foldr_max in Hk. subst k.
    destruct indices; [by cbn in Hk; lia|]. lia.
Qed.

Lemma domain_names_add_column c name data :
  domain_names (add_column c name data) = domain_names c ++ [name].
Proof. unfold domain_names. cbn. by rewrite fmap_app, app_assoc. Qed.

Lemma add_columns_spec corpus cols :
  ∃ new,
    add_columns corpus cols
    = {| class_vars := class_vars corpus; Y := Y corpus;
         metas := metas corpus ++ new;
         title := title corpus; text_features := text_features corpus |}
    ∧ snd <$> new = snd <$> cols
    ∧ (∀ i col, cols !! i = Some col →
         (fst <$> new) !! i
         = Some (get_unique_names
                   (domain_names corpus ++ take i (fst <$> new)) (fst col)))
    ∧ Forall (λ n, n ∉ domain_names corpus) (fst <$> new)
    ∧ (NoDup (domain_names corpus) →
       NoDup (domain_names corpus ++ (fst <$> new))).
Proof.
  revert corpus. induction cols as [|col cols IH]; intros corpus.
  { exists []. cbn. rewrite !app_nil_r. split_and!; try done.
    by destruct corpus. }
  cbn [add_columns foldl].
  set (name := get_unique_names (domain_names corpus) (fst col)).
  destruct (IH (add_column corpus name (snd col)))
    as (new & Heq & Hdata & Hnames & Hfresh & Hnd).
  exists ((name, snd col) :: new).
  rewrite domain_names_add_column in *.
  split_and!.
  - unfold add_columns in Heq. rewrite Heq. cbn. by rewrite <- app_assoc.
  - cbn. by rewrite Hdata.
  - intros [|i] col' Hi; cbn in *.
    + simplify_eq. by rewrite app_nil_r.
    + specialize (Hnames i col' Hi). rewrite <- app_assoc in Hnames.
      exact Hnames.
  - cbn. constructor; [apply get_unique_names_fresh|].
    eapply Forall_impl; [exact Hfresh|]. cbn. intros n Hn Hin.
    apply Hn, elem_of_app. by left.
  - intros Hd. cbn. rewrite (cons_middle name), app_assoc. apply Hnd.
    apply NoDup_app. split_and!; [done| |apply NoDup_singleton].
    intros n Hn ->%list_elem_of_singleton.
    by apply (get_unique_names_fresh (domain_names corpus) (fst col)).
Qed.

(** C6: for a corpus with a [path] column and a metadata table with the
    file-reference column, the join succeeds and keeps the rows of the
    corpus; after dropping later duplicates every key labels one row; each
    metadata column is appended as a string column, in order, under the
    name [get_unique_names] gives it, which no existing column has; and the
    cell joined to a corpus row is the cell of the first metadata row whose
    root-prefixed file reference equals the row's path, or missing when
    there is none. *)
Theorem add_metadata_join self corpus df :
  "path" ∈ (fst <$> metas corpus) →
  META_DATA_FILE_KEY ∈ column_names df →
  let index := join_index self df in
  let path_column := get_column_view corpus "path" in
  ∃ new,
    _add_metadata self (Some corpus) (Some df)
    = Ok (Some {| class_vars := class_vars corpus; Y := Y corpus;
                  metas := metas corpus ++ new;
                  title := title corpus;
                  text_features := text_features corpus |})
    ∧ NoDup (drop_masked (duplicated index) index)
    ∧ length new = length (columns df)
    ∧ (∀ i name values, columns df !! i = Some (name, values) →
         ∃ joined,
           new !! i
           = Some (get_unique_names
                     (domain_names corpus ++ take i (fst <$> new)) name,
                   joined)
           ∧ length joined = length path_column
           ∧ ∀ r p, path_column !! r = Some p →
               (∃ j, index !! j = Some p
                     ∧ (∀ j', j' < j → index !! j' ≠ Some p)
                     ∧ joined !! r = Some (default NaN (values !! j)))
               ∨ ((p ∉ index) ∧ joined !! r = Some NaN))
    ∧ Forall (λ n, n ∉ domain_names corpus) (fst <$> new)
    ∧ (NoDup (domain_names corpus) →
       NoDup (domain_names corpus ++ (fst <$> new))).
Proof.
  intros Hpath Hkey index path_column.
  unfold _add_metadata.
  rewrite (bool_decide_eq_true_2 (_ ∈ domain_names corpus))
    by (apply elem_of_app; by right).
  rewrite (bool_decide_eq_true_2 _ Hkey). cbn [negb orb].
  rewrite filtered_columns_first_occurrence.
  fold index path_column.
  destruct (add_columns_spec corpus
              ((λ col, (fst col, reindex_column index path_column (snd col)))
                 <$> columns df))
    as (new & Heq & Hdata & Hnames & Hfresh & Hnd).
  exists new. rewrite Heq. split_and!; try done.
  - apply drop_duplicates_NoDup.
  - rewrite <- (length_fmap snd new), Hdata. by rewrite !length_fmap.
  - intros i name values Hi.
    assert (((λ col : string * list cell,
               (fst col, reindex_column index path_column (snd col)))
               <$> columns df) !! i
            = Some (name, reindex_column index path_column values)) as Hi'.
    { by rewrite list_lookup_fmap, Hi. }
    specialize (Hnames i _ Hi'). cbn [fst] in Hnames.
    assert ((snd <$> new) !! i
            = Some (reindex_column index path_column values)) as Hd.
    { rewrite Hdata, <- list_fmap_compose, list_lookup_fmap, Hi. done. }
    rewrite list_lookup_fmap in Hnames. rewrite list_lookup_fmap in Hd.
    destruct (new !! i) as [[name' joined]|] eqn:Hn; [|done].
    cbn in Hnames, Hd. simplify_eq.
    eexists. split_and!; [done|by unfold reindex_column; rewrite length_fmap|].
    intros r p Hr. unfold reindex_column.
    rewrite list_lookup_fmap, Hr. cbn. unfold reindex_cell.
    destruct (get_loc index p) as [j|] eqn:Hj.
    + left. apply get_loc_Some in Hj as [H1 H2]. by eauto.
    + right. by apply get_loc_None in Hj.
Qed.

(** Witness for C6: a metadata table that lists [catA/a.txt] twice. *)
Lemma add_metadata_join_witness :
  ∃ new,
    _add_metadata demo (Some demo_corpus) (Some demo_csv)
    = Ok (Some {| class_vars := class_vars demo_corpus; Y := Y demo_corpus;
                  metas := metas demo_corpus ++ new;
                  title := title demo_corpus;
                  text_features := text_features demo_corpus |})
    ∧ length new = 3
    ∧ NoDup (domain_names demo_corpus ++ (fst <$> new)).
Proof.
  destruct (add_metadata_join demo demo_corpus demo_csv)
    as (new & Heq & _ & Hlen & _ & _ & Hnodup).
  - apply list_elem_of_In. vm_compute. tauto.
  - apply list_elem_of_In. vm_compute. tauto.
  - exists new. split_and!; [done..|].
    apply Hnodup. apply NoDup_ListNoDup. vm_compute.
    repeat (constructor; [cbn; intuition discriminate|]). constructor.
Defined.

(** ** The run *)

Lemma run_unfold w self st :
  run w self st =
  match _read_text_data w self st with
  | (Raise e, st1) => (Raise e, st1)
  | (Ok None, st1) => (Raise TypeError, st1)
  | (Ok (Some (text_data, errors_text)), st1) =>
      match _read_meta_data w self st1 with
      | (Raise e, st2) => (Raise e, st2)
      | (Ok None, st2) => (Raise TypeError, st2)
      | (Ok (Some (meta_data, errors_meta)), st2) =>
          match _create_corpus w text_data with
          | Raise e => (Raise e, st2)
          | Ok corpus =>
              match _add_metadata self corpus meta_data with
              | Raise e => (Raise e, st2)
              | Ok corpus => (Ok (corpus, errors_text ++ errors_meta), st2)
              end
          end
      end
  end.
Proof.
  unfold run. rewrite bind_unfold.
  destruct (_read_text_data w self st) as [[[[text_data errors_text]|]|e] st1];
    [|done..].
  rewrite bind_unfold.
  destruct (_read_meta_data w self st1) as [[[[meta errors_meta]|]|e] st2];
    [|done..].
  rewrite bind_unfold.
  destruct (_create_corpus w text_data) as [corpus|e]; [|done]. cbn.
  rewrite bind_unfold.
  by destruct (_add_metadata self corpus meta) as [corpus'|e].
Qed.

(** C1: when the initial document scan yields no candidate path, [run]
    raises [NoDocumentsException] and leaves the state as it was: nothing
    has been read, and no corpus is returned. *)
Theorem run_without_documents w self st :
  scan_for w self (text_patterns self) = [] →
  run w self st = (Raise NoDocumentsException, st).
Proof.
  intros H. unfold run. rewrite bind_unfold.
  unfold _read_text_data. fold (text_patterns self). rewrite H. reflexivity.
Qed.

(** Witness for C1: the demo folder holds no [.rtf] file. *)
Lemma run_without_documents_witness :
  run (demo_world never) demo_rtf initial_state
  = (Raise NoDocumentsException, initial_state).
Proof. apply run_without_documents. reflexivity. Defined.

(** C3: when a poll made after a completed document or metadata read
    sees the cancellation flag set, the run ends there: that poll is the
    last one, the files read are the candidates up to that read, and the
    run returns neither a corpus nor an error list (unpacking the [None] of
    the cancelled phase raises [TypeError]). *)
Theorem run_cancelled w self st j :
  polls st ≤ j < polls (snd (run w self st)) →
  cancelled w j = true →
  fst (run w self st) = Raise TypeError
  ∧ polls (snd (run w self st)) = S j
  ∧ reads_of (trace (snd (run w self st)))
    = reads_of (trace st)
      ++ take (S j - polls st)
           (scan_for w self (text_patterns self)
            ++ scan_for w self (meta_patterns)).
Proof.
  rewrite run_unfold.
  pose proof (_read_text_data_post w self st) as (T1 & T2 & T3 & T4 & T5 & T6).
  destruct (_read_text_data w self st) as [[[[text_data errors_text]|]|e] st1];
    cbn in T1, T2, T3, T4, T5, T6.
  - pose proof (_read_meta_data_post w self st1)
      as (M1 & M2 & M3 & M4 & M5 & M6).
    specialize (T5 ltac:(eauto)).
    assert (∀ st2 (r : result (option Corpus * list string)),
              polls st2 = polls (snd (_read_meta_data w self st1)) →
              trace st2 = trace (snd (_read_meta_data w self st1)) →
              fst (_read_meta_data w self st1) ≠ Ok None →
              polls st ≤ j < polls st2 → cancelled w j = true → False) as Hno.
    { intros st2 r E1 E2 Hne [? ?] Hc. rewrite E1 in *.
      destruct (decide (j < polls st1)).
      - by destruct (T3 j ltac:(lia) Hc).
      - destruct (M3 j ltac:(lia) Hc). done. }
    destruct (_read_meta_data w self st1) as [[[[meta errors_meta]|]|e] st2];
      cbn in M1, M2, M3, M4, M5, M6, Hno.
    + intros Hj Hc. exfalso.
      destruct (_create_corpus w text_data) as [corpus|e];
        [destruct (_add_metadata self corpus meta) as [corpus'|e]|];
        cbn in Hj; by eapply (Hno st2 (Raise TypeError)).
    + cbn. intros Hj Hc. split; [done|].
      destruct (decide (j < polls st1)).
      { by destruct (T3 j ltac:(lia) Hc). }
      destruct (M3 j ltac:(lia) Hc) as [_ Hl]. split; [done|].
      rewrite M6, T6, T5, Nat.add_0_r, Nat.add_0_r, <- app_assoc. f_equal.
      rewrite firstn_all.
      rewrite take_app_ge by lia. f_equal. f_equal. lia.
    + cbn. intros Hj Hc. exfalso. by eapply (Hno st2 (Raise TypeError)).
  - cbn. intros Hj Hc. destruct (T3 j Hj Hc) as [_ Hl]. split_and!; [done..|].
    rewrite T6, Nat.add_0_r. f_equal.
    rewrite take_app_le by lia. f_equal. lia.
  - cbn. intros Hj Hc. by destruct (T3 j Hj Hc).
Qed.

(** Witness for C3: the flag is seen set at the second poll. *)
Lemma run_cancelled_witness :
  fst (run (demo_world (Nat.eqb 1)) demo initial_state) = Raise TypeError
  ∧ polls (snd (run (demo_world (Nat.eqb 1)) demo initial_state)) = 2
  ∧ reads_of (trace (snd (run (demo_world (Nat.eqb 1)) demo initial_state)))
    = ["/data/top.txt"; "/data/catA/a.txt"].
Proof.
  apply (run_cancelled (demo_world (Nat.eqb 1)) demo initial_state 1).
  - vm_compute. lia.
  - reflexivity.
Defined.

Lemma run_all_unreadable w self st st1 errors_text st2 meta_data errors_meta :
  _read_text_data w self st = (Ok (Some ([], errors_text)), st1) →
  _read_meta_data w self st1 = (Ok (Some (meta_data, errors_meta)), st2) →
  run w self st = (Raise AttributeError, st2).
Proof. intros H1 H2. by rewrite run_unfold, H1, H2. Qed.

(** C2: when the scan finds candidates but every one of them fails to
    read, [run] is expected to return [None] with the error list.  On the
    code it does not: [_create_corpus] yields [None] for the empty document
    list, and [_add_metadata] then evaluates [corpus.domain] on it, so the
    run ends with [AttributeError].  Here the only candidate is a corrupt
    [.docx] file. *)
Theorem run_all_unreadable_raises_AttributeError :
  scan_for (demo_world never) demo_docx (text_patterns demo_docx)
  = ["/data/catA/broken.docx"]
  ∧ fst (_read_text_data (demo_world never) demo_docx initial_state)
    = Ok (Some ([], ["broken.docx"]))
  ∧ fst (run (demo_world never) demo_docx initial_state)
    = Raise AttributeError.
Proof. split_and!; by vm_compute. Qed.

(** The demo folder, scanned and imported. *)
Example demo_scan :
  scan_for (demo_world never) demo (text_patterns demo)
  = ["/data/top.txt"; "/data/catA/a.txt"; "/data/catA/broken.docx";
     "/data/catB/b.txt"; "/data/catB/deep/c.TXT"]
  ∧ scan_for (demo_world never) demo meta_patterns
    = ["/data/catB/meta.yml"; "/data/catB/meta.csv"].
Proof. split; reflexivity. Qed.

Example demo_run :
  fst (run (demo_world never) demo initial_state)
  = Ok (Some
          {| class_vars :=
               [{| dv_name := "category";
                   dv_values := ["catA"; "catB"; "data"] |}];
             Y := [[2]; [0]; [1]];
             metas :=
               [("name", [Val "top"; Val "a"; Val "b"]);
                ("path", [Val "/data/top.txt"; Val "/data/catA/a.txt";
                          Val "/data/catB/b.txt"]);
                ("content", [Val "text of /data/top.txt";
                             Val "text of /data/catA/a.txt";
                             Val "text of /data/catB/b.txt"]);
                ("Text file", [NaN; Val "catA/a.txt"; Val "catB/b.txt"]);
                ("author", [NaN; Val "ann"; Val "bob"]);
                ("name (1)", [NaN; Val "n1"; NaN])];
             title := "name";
             text_features := ["content"] |},
        ["broken.docx"; "c.TXT"; "meta.yml"]).
Proof. by vm_compute. Qed.

(** ** Further properties of the scanner *)

Lemma fnmatch_pat_star pat s :
  fnmatch_pat (String "*" pat) s
  = fnmatch_pat pat s
    || match s with
       | "" => false
       | String _ s' => fnmatch_pat (String "*" pat) s'
       end.
Proof. by destruct s. Qed.

Lemma fnmatch_star s : fnmatch s "*" = true.
Proof.
  unfold fnmatch. induction s as [|a s IH]; [done|].
  by rewrite fnmatch_pat_star, IH, orb_true_r.
Qed.

Lemma fnmatch_hidden s : fnmatch s ".*" = Str.startswith "." s.
Proof.
  destruct s as [|a s]; [done|].
  change (fnmatch (String a s) ".*")
    with (Str.ascii_eqb "." a && fnmatch s "*").
  by rewrite fnmatch_star.
Qed.

Lemma lower_char_dot a :
  Str.ascii_eqb "." (Str.lower_char a) = Str.ascii_eqb "." a.
Proof.
  unfold Str.lower_char.
  destruct (_ && _) eqn:E; [|done].
  apply andb_true_iff in E as [E1 E2].
  apply Nat.leb_le in E1, E2.
  unfold Str.ascii_eqb.
  rewrite (bool_decide_eq_false_2 (("."%char : ascii) = a)).
  2:{ intros <-. change (nat_of_ascii ".") with 46 in E1. lia. }
  apply bool_decide_eq_false_2.
  intros H. apply (f_equal nat_of_ascii) in H.
  rewrite nat_ascii_embedding in H by lia.
  change (nat_of_ascii ".") with 46 in H. lia.
Qed.

Lemma lower_startswith_dot s :
  Str.startswith "." (Str.lower s) = Str.startswith "." s.
Proof.
  destruct s as [|a s]; [done|]. cbn [Str.lower Str.startswith].
  by rewrite lower_char_dot.
Qed.

Lemma matches_any_hidden fname :
  matches_any fname [".*"] = Str.startswith "." fname.
Proof.
  unfold matches_any. cbn [existsb]. rewrite orb_false_r, fnmatch_hidden.
  apply lower_startswith_dot.
Qed.

(** The local scan returns exactly the files that pass the filters and
    lie in directories reached from the top through names that do not
    match [".*"]. *)
Theorem scan_characterisation w topdir t include_patterns exclude_patterns p :
  directory w topdir = Some t →
  p ∈ scan w topdir include_patterns exclude_patterns
  ↔ ∃ ds f,
      file_at t ds f
      ∧ Forall (λ d, ¬ hidden d) ds
      ∧ keep_file include_patterns exclude_patterns f = true
      ∧ p = PathLib.join (dirpath_of topdir ds) f.
Proof.
  intros Ht. split.
  - by apply elem_of_scan.
  - intros (ds & f & Hat & Hds & Hkeep & ->). by apply (scan_finds _ _ t).
Qed.

Lemma scan_characterisation_witness :
  "/data/catB/deep/c.TXT" ∈ scan (demo_world never) "/data/" ["*.txt"] [".*"].
Proof.
  apply (scan_characterisation (demo_world never) "/data/" demo_tree
           ["*.txt"] [".*"] "/data/catB/deep/c.TXT"); [reflexivity|].
  exists ["catB"; "deep"], "c.TXT". split_and!; [|by repeat constructor|done..].
  exists [], ["c.TXT"]. split; [|by left].
  eapply dir_below; [by right; right; left|].
  eapply dir_below; [by left|]. apply dir_here.
Defined.

(** With the default exclude pattern the scan of the pipeline never
    returns a file or a directory whose name starts with a dot. *)
Theorem scan_for_skips_dot_names w self t patterns p :
  is_url self = false →
  directory w (startdir self) = Some t →
  p ∈ scan_for w self patterns →
  ∃ ds f,
    file_at t ds f
    ∧ Forall (λ d, Str.startswith "." d = false) ds
    ∧ Str.startswith "." f = false
    ∧ matches_any f patterns = true
    ∧ p = PathLib.join (dirpath_of (startdir self) ds) f.
Proof.
  intros Hlocal Ht. unfold scan_for. rewrite Hlocal. intros Hp.
  apply (elem_of_scan _ _ _ _ _ _ Ht) in Hp
    as (ds & f & Hat & Hds & Hkeep & ->).
  exists ds, f. unfold keep_file in Hkeep.
  apply andb_true_iff in Hkeep as [Hinc Hexc].
  rewrite matches_any_hidden in Hexc. apply negb_true_iff in Hexc.
  split_and!; try done.
  eapply Forall_impl; [exact Hds|]. intros d Hd. cbn in Hd.
  unfold hidden in Hd. rewrite fnmatch_hidden in Hd.
  by destruct (Str.startswith "." d).
Qed.

Lemma scan_for_skips_dot_names_witness :
  ∃ ds f,
    file_at demo_tree ds f
    ∧ Forall (λ d, Str.startswith "." d = false) ds
    ∧ Str.startswith "." f = false
    ∧ matches_any f (text_patterns demo) = true
    ∧ "/data/catA/a.txt" = PathLib.join (dirpath_of (startdir demo) ds) f.
Proof.
  apply (scan_for_skips_dot_names (demo_world never) demo demo_tree
           (text_patterns demo) "/data/catA/a.txt").
  - reflexivity.
  - reflexivity.
  - apply list_elem_of_In. vm_compute. tauto.
Defined.

Lemma flat_map_nil {A B} (f : A → list B) l :
  (∀ x, f x = []) → flat_map f l = [].
Proof.
  intros H. induction l as [|x l IH]; [done|]. cbn. by rewrite H, IH.
Qed.

Lemma filter_false {A} (l : list A) : List.filter (λ _, false) l = [].
Proof. by induction l. Qed.

(** An empty list of include patterns means different things to the two
    scanners: the local scan then keeps no file at all, while the remote
    scan falls back to ["*"] and keeps every listed path that is not
    excluded; and a remote listing that cannot be fetched gives no path. *)
Theorem scan_empty_include_patterns w topdir exclude_patterns :
  scan w topdir [] exclude_patterns = []
  ∧ (∀ files, listfiles w topdir = Some files →
       scan_url w topdir [] exclude_patterns
       = List.filter (λ p, negb (matches_any p exclude_patterns))
           ((λ filename, topdir +:+ Str.join "/" filename) <$> files))
  ∧ (listfiles w topdir = None →
     ∀ include_patterns,
       scan_url w topdir include_patterns exclude_patterns = []).
Proof.
  split_and!.
  - unfold scan. destruct (directory w topdir) as [t|]; [|done].
    apply flat_map_nil. intros [[dirpath dirnames] filenames].
    unfold keep_file, matches_any. cbn [existsb andb].
    by rewrite filter_false.
  - intros files Hfiles. unfold scan_url. rewrite Hfiles.
    apply filter_ext. intros p. unfold matches_any at 1. cbn [existsb].
    by rewrite fnmatch_star.
  - intros Hnone include_patterns. unfold scan_url. by rewrite Hnone.
Qed.

Lemma scan_empty_include_patterns_witness :
  scan (demo_world never) "/data/" [] [".*"] = []
  ∧ scan_url remote_world "http://host/docs/" [] [".*"]
    = ["http://host/docs/catA/a.txt"; "http://host/docs/catA/broken.pdf";
       "http://host/docs/meta.yml"].
Proof.
  destruct (scan_empty_include_patterns (demo_world never) "/data/" [".*"])
    as (Hlocal & _ & _).
  destruct (scan_empty_include_patterns remote_world "http://host/docs/"
              [".*"]) as (_ & Hremote & _).
  split; [exact Hlocal|].
  rewrite (Hremote _ eq_refl). reflexivity.
Defined.

(** ** Further properties of the readers *)

(** Dispatch does not depend on the order of the registry: the reader
    returned for a path is the one class that declares the path's suffix,
    and the fallback when there is none. *)
Theorem get_reader_dispatch p c :
  c ≠ Reader →
  cls (get_reader p) = c ↔ declares (PathLib.suffix p) c = true.
Proof.
  intros Hc. unfold get_reader.
  split.
  - destruct (List.find _ registry) as [c'|] eqn:E; cbn; [|done].
    intros <-. by apply List.find_some in E as [_ ?].
  - intros Hd. unfold declares in Hd.
    destruct c; try done; cbn in Hd;
      apply bool_decide_eq_true, list_elem_of_singleton in Hd;
      by rewrite Hd.
Qed.

Lemma get_reader_dispatch_witness :
  cls (get_reader "/data/catB/meta.csv") = CsvMetaReader.
Proof.
  apply (get_reader_dispatch "/data/catB/meta.csv" CsvMetaReader); [done|].
  reflexivity.
Defined.

(** The scan lowercases file names before matching, the registry does
    not: a path whose suffix has a capital letter gets the fallback reader
    and can only end in the error list. *)
Theorem capital_suffix_is_unreadable w p st :
  Str.lower (PathLib.suffix p) ≠ PathLib.suffix p →
  get_reader p = {| cls := Reader; path := p |}
  ∧ fst (read w (get_reader p) st) = Ok (None, PathLib.name p).
Proof.
  intros Hcap.
  assert (get_reader p = {| cls := Reader; path := p |}) as Hr.
  { apply get_reader_fallback. intros c l Hc Hl Hin.
    apply Hcap.
    repeat (apply elem_of_cons in Hc as [->|Hc];
            [cbn in Hl; simplify_eq;
             apply list_elem_of_singleton in Hin; by rewrite Hin|]).
    by apply elem_of_nil in Hc. }
  split; [done|]. rewrite Hr. apply read_fallback.
Qed.

Lemma capital_suffix_is_unreadable_witness :
  matches_any "c.TXT" (text_patterns demo) = true
  ∧ get_reader "/data/catB/deep/c.TXT"
    = {| cls := Reader; path := "/data/catB/deep/c.TXT" |}
  ∧ fst (read (demo_world never) (get_reader "/data/catB/deep/c.TXT")
           initial_state) = Ok (None, "c.TXT").
Proof.
  split; [reflexivity|].
  apply (capital_suffix_is_unreadable (demo_world never)
           "/data/catB/deep/c.TXT" initial_state).
  by vm_compute.
Defined.

Lemma make_text_data_unfold r content st :
  make_text_data r content st
  = match List.last (Some <$> PathLib.parent_parts (path r)) None with
    | None => (Raise IndexError, st)
    | Some part =>
        match ext (cls r) with
        | None => (Raise AttributeError, st)
        | Some e =>
            (Ok {| td_name := PathLib.stem (path r);
                   td_path := path r;
                   td_ext := match cls r with
                             | UrlReader => [PathLib.suffix (path r)]
                             | _ => e
                             end;
                   td_category := if Str.eqb part "" then "None" else part;
                   td_content := content |}, st)
        end
    end.
Proof.
  unfold make_text_data, make_text_data_base. rewrite bind_unfold.
  destruct (List.last _ _) as [part|]; [|done].
  destruct (ext (cls r)) as [e|] eqn:He; [|done].
  by destruct (cls r).
Qed.

Lemma List_last_fmap_Some {A} (l : list A) :
  List.last (Some <$> l) None = last l.
Proof.
  induction l as [|x l IH]; [done|]. destruct l as [|y l]; [done|].
  cbn in *. by rewrite IH.
Qed.

Lemma List_last_default {A} (l : list A) x d :
  last l = Some x → List.last l d = x.
Proof.
  induction l as [|y l IH]; [done|]. destruct l as [|z l].
  - by intros [= ->].
  - intros H. cbn in *. by apply IH.
Qed.

(** The parts of a parent directory are never empty strings, so the
    ["None"] alternative of [make_text_data] is not taken. *)
Lemma parent_parts_nonempty p part :
  part ∈ PathLib.parent_parts p → part ≠ "".
Proof.
  unfold PathLib.parent_parts. intros [Hin|Hin]%elem_of_app.
  - unfold Str.eqb in Hin. case_bool_decide as Hroot;
      [by apply elem_of_nil in Hin|].
    apply list_elem_of_singleton in Hin. by subst.
  - assert (part ∈ PathLib.segments p) as Hseg.
    { apply list_elem_of_In. apply list_elem_of_In in Hin.
      revert Hin. generalize (PathLib.segments p) as l.
      induction l as [|x l IH]; [done|]. destruct l as [|y l]; [done|].
      cbn -[removelast]. change (removelast (x :: y :: l))
        with (x :: removelast (y :: l)).
      intros [->|Hin]; [by left|]. right. by apply IH. }
    unfold PathLib.segments in Hseg.
    apply list_elem_of_filter in Hseg as [[Hne _] _]. done.
Qed.

(** What a caller of [read] gets back: either no record and the file's
    name as error label, or a record and an empty label.  The record is
    made from the path alone, except for its content, which is what
    [read_file] extracted: the name is the stem, the category the last
    part of the parent directory, and the extensions those of the reader
    class, or the suffix of the URL for a remote document. *)
Theorem read_outcome w r st outcome error st' :
  read w r st = (Ok (outcome, error), st') →
  (outcome = None ∧ error = PathLib.name (path r))
  ∨ (∃ content category,
       fst (read_file w (recursion_limit w) (cls r) (path r)
              (snd (emit (EvRead (path r)) st))) = Ok content
       ∧ List.last (PathLib.parent_parts (path r)) "" = category
       ∧ category ≠ ""
       ∧ error = ""
       ∧ outcome
         = Some {| td_name := PathLib.stem (path r);
                   td_path := path r;
                   td_ext := match cls r with
                             | UrlReader => [PathLib.suffix (path r)]
                             | c => default [] (ext c)
                             end;
                   td_category := category;
                   td_content := content |}).
Proof.
  rewrite read_unfold. cbn zeta.
  destruct (read_file _ _ _ _ _) as [[content|e] st1] eqn:Hfile.
  2:{ intros [= <- <- <-]. by left. }
  rewrite make_text_data_unfold, List_last_fmap_Some.
  destruct (last (PathLib.parent_parts (path r))) as [part|] eqn:Hlast;
    [|done].
  destruct (ext (cls r)) as [e|] eqn:He; [|done].
  intros [= <- <- <-]. right.
  assert (part ≠ "") as Hpart.
  { apply (parent_parts_nonempty (path r)).
    apply last_Some in Hlast as [l' ->]. apply elem_of_app. right. by left. }
  exists content, part. split_and!; try done.
  - by apply List_last_default.
  - unfold Str.eqb. rewrite bool_decide_eq_false_2 by done.
    do 2 f_equal. destruct (cls r); cbn in He; by simplify_eq.
Qed.

Lemma read_outcome_witness :
  ∃ content category,
    fst (read_file (demo_world never) 1000 TxtReader "/data/catA/a.txt"
           (snd (emit (EvRead "/data/catA/a.txt") initial_state)))
    = Ok content
    ∧ List.last (PathLib.parent_parts "/data/catA/a.txt") "" = category
    ∧ category ≠ ""
    ∧ "" = ""
    ∧ Some {| td_name := "a"; td_path := "/data/catA/a.txt";
              td_ext := [".txt"]; td_category := "catA";
              td_content := CStr "text of /data/catA/a.txt" |}
      = Some {| td_name := PathLib.stem "/data/catA/a.txt";
                td_path := "/data/catA/a.txt";
                td_ext := default [] (ext TxtReader);
                td_category := category;
                td_content := content |}.
Proof.
  destruct (read_outcome (demo_world never)
              {| cls := TxtReader; path := "/data/catA/a.txt" |}
              initial_state
              (Some {| td_name := "a"; td_path := "/data/catA/a.txt";
                       td_ext := [".txt"]; td_category := "catA";
                       td_content := CStr "text of /data/catA/a.txt" |})
              ""
              (snd (emit (EvRead "/data/catA/a.txt") initial_state)))
    as [[Hnone _]|Hsome].
  - reflexivity.
  - discriminate Hnone.
  - exact Hsome.
Defined.

Lemma parent_parts_bare_name p :
  has_char "/" p = false → PathLib.parent_parts p = [].
Proof.
  intros Hp. unfold PathLib.parent_parts, PathLib.segments.
  rewrite (split_no_sep "/" p Hp).
  assert (PathLib.root p = "") as ->.
  { destruct p as [|a p]; [done|]. cbn in Hp.
    apply orb_false_iff in Hp as [Ha _].
    unfold Str.ascii_eqb in Ha. apply bool_decide_eq_false in Ha.
    unfold PathLib.root.
    destruct a as [[] [] [] [] [] [] [] []]; try done. }
  cbn. by destruct (decide _).
Qed.

(** A file given by a bare name, without any directory part, cannot
    become a record: when its extraction succeeds, [make_text_data] finds
    no parent part to take the category from, and the [IndexError] leaves
    [read], which guards the extraction only. *)
Theorem read_bare_name_raises w r st content :
  has_char "/" (path r) = false →
  fst (read_file w (recursion_limit w) (cls r) (path r)
         (snd (emit (EvRead (path r)) st))) = Ok content →
  fst (read w r st) = Raise IndexError.
Proof.
  intros Hbare Hfile. rewrite read_unfold. cbn zeta.
  destruct (read_file _ _ _ _ _) as [[content'|e] st1]; [|done].
  rewrite make_text_data_unfold, (parent_parts_bare_name _ Hbare). done.
Qed.

Lemma read_bare_name_raises_witness :
  fst (read (demo_world never) {| cls := TxtReader; path := "notes.txt" |}
         initial_state) = Raise IndexError.
Proof.
  apply (read_bare_name_raises (demo_world never)
           {| cls := TxtReader; path := "notes.txt" |} initial_state
           (CStr "text of notes.txt")).
  - reflexivity.
  - reflexivity.
Defined.

Lemma read_file_parse w depth c p st b content :
  c ≠ UrlReader →
  tmpfiles st !! p = Some b →
  parse w c b = Some content →
  read_file w depth c p st = (Ok content, st).
Proof.
  intros Hc Hp Hparse.
  destruct depth, c; try done; cbn in Hparse |- *; rewrite bind_unfold;
    unfold open; rewrite Hp; rewrite bind_unfold;
    match goal with
    | H : _ <$> ?o = Some _ |- _ => destruct o; cbn in H; simplify_eq
    end; done.
Qed.

(** A remote document is the downloaded body as parsed by the reader
    chosen for the downloaded file, and when that succeeds the temporary
    file is gone again and no other one has been touched. *)
Theorem url_read_file_success w depth p st name body content :
  urlopen w p = Some (name, Some body) →
  let f := tmp_stem w (ntmp st) +:+ Str.concat (PathLib.suffixes name) in
  cls (get_reader f) ≠ UrlReader →
  parse w (cls (get_reader f)) body = Some content →
  fst (read_file w (S depth) UrlReader p st) = Ok content
  ∧ tmpfiles (snd (read_file w (S depth) UrlReader p st))
    = delete f (tmpfiles st).
Proof.
  intros Hopen f Hcls Hparse.
  assert (read_file w (S depth) UrlReader p st
          = (Ok content,
             {| tmpfiles := delete f (<[f:=body]> (<[f:=""]> (tmpfiles st)));
                ntmp := S (ntmp st); polls := polls st;
                trace := trace st |})) as ->.
  { cbn -[get_reader]. rewrite bind_unfold, Hopen. cbn -[get_reader].
    rewrite !bind_unfold. cbn -[get_reader]. fold f.
    rewrite bind_unfold. unfold ret at 1. cbn match beta.
    rewrite bind_unfold. unfold write at 1. cbn match beta.
    cbn [tmpfiles ntmp polls trace].
    rewrite bind_unfold, path_get_reader.
    erewrite read_file_parse; [|done|apply lookup_insert_eq|done].
    done. }
  cbn. split; [done|].
  by rewrite insert_insert_eq, delete_insert_eq.
Qed.

Lemma url_read_file_success_witness :
  fst (read_file remote_world 1 UrlReader "http://host/docs/catA/a.txt"
         initial_state) = Ok (CStr "text of alpha")
  ∧ tmpfiles (snd (read_file remote_world 1 UrlReader
                     "http://host/docs/catA/a.txt" initial_state))
    = delete "/tmp/tmpdoc.txt" (tmpfiles initial_state).
Proof.
  apply (url_read_file_success remote_world 0 "http://host/docs/catA/a.txt"
           initial_state "a.txt" "alpha" (CStr "text of alpha")).
  - reflexivity.
  - by vm_compute.
  - reflexivity.
Defined.

(** ** Further properties of the pipeline *)

(** Over a URL a listing that cannot be fetched is not told apart from an
    empty one: the run ends with [NoDocumentsException]. *)
Theorem run_url_listing_failure w self st :
  is_url self = true →
  listfiles w (startdir self) = None →
  run w self st = (Raise NoDocumentsException, st).
Proof.
  intros Hurl Hlist. rewrite run_unfold.
  unfold _read_text_data, scan_for, scan_url. by rewrite Hurl, Hlist.
Qed.


Lemma run_url_listing_failure_witness :
  run offline_world remote initial_state
  = (Raise NoDocumentsException, initial_state).
Proof.
  apply (run_url_listing_failure offline_world remote initial_state).
  - reflexivity.
  - reflexivity.
Defined.

Lemma endswith_char_snoc c s : Str.endswith_char c (s +:+ String c "") = true.
Proof.
  rewrite endswith_char_app by done. cbn. apply ascii_eqb_refl.
Qed.

(** The constructor leaves the start directory with a trailing
    separator, adds none to one that has it, and normalising twice changes
    nothing; only the empty local directory stays empty. *)
Theorem init_startdir s u fmts r :
  (u = true ∨ s ≠ "" →
   Str.endswith_char "/" (startdir (init s u fmts r)) = true)
  ∧ (Str.endswith_char "/" s = true → startdir (init s u fmts r) = s)
  ∧ startdir (init "" false fmts r) = ""
  ∧ init (startdir (init s u fmts r)) u fmts r = init s u fmts r.
Proof.
  assert (∀ s', Str.endswith_char "/" s' = true →
                startdir (init s' u fmts r) = s') as Hkeep.
  { intros s' Hs'. unfold init. cbn [startdir]. rewrite Hs'.
    destruct u; cbn; [done|].
    unfold PathLib.join. cbn. rewrite Hs', orb_true_r.
    apply str_app_nil_r. }
  assert (u = true ∨ s ≠ "" →
          Str.endswith_char "/" (startdir (init s u fmts r)) = true) as Hslash.
  { intros Hcase. unfold init. cbn [startdir].
    destruct (Str.endswith_char "/" s) eqn:Hs.
    - destruct u; cbn; [exact Hs|]. unfold PathLib.join. cbn.
      rewrite Hs, orb_true_r. by rewrite str_app_nil_r.
    - destruct u; cbn; [apply endswith_char_snoc|].
      destruct Hcase as [|Hne]; [done|].
      unfold PathLib.join. cbn. rewrite Hs, orb_false_r.
      unfold Str.eqb. rewrite bool_decide_eq_false_2 by done.
      rewrite str_app_nil_r. apply endswith_char_snoc. }
  split_and!; [done|apply Hkeep|reflexivity|].
  destruct (decide (u = true ∨ s ≠ "")) as [Hcase|Hno].
  - transitivity
      {| startdir := startdir (init (startdir (init s u fmts r)) u fmts r);
         formats := fmts; report_progress := r; is_url := u |};
      [reflexivity|].
    by rewrite (Hkeep _ (Hslash Hcase)).
  - assert (u = false ∧ s = "") as [-> ->].
    { destruct u; [by destruct Hno; left|].
      split; [done|]. destruct (decide (s = "")); [done|].
      destruct Hno. by right. }
    done.
Qed.

Lemma init_startdir_witness :
  Str.endswith_char "/" (startdir (init "/data" false DefaultFormats true))
  = true.
Proof.
  destruct (init_startdir "/data" false DefaultFormats true) as (Hslash & _).
  apply Hslash. by right.
Defined.

Lemma read_Some_path w r st t e st' :
  read w r st = (Ok (Some t, e), st') → td_path t = path r ∧ e = "".
Proof.
  intros Hread.
  destruct (read_outcome _ _ _ _ _ _ Hread)
    as [[? _]|(content & category & _ & _ & _ & -> & Hsome)]; [done|].
  by simplify_eq.
Qed.

Lemma read_text_loop_partition w self n_paths paths :
  ∀ text_data errors batch st text_data' errors' st',
    read_text_loop w self n_paths paths text_data errors batch st
    = (Ok (Some (text_data', errors')), st') →
    ∃ steps,
      fst <$> steps = paths
      ∧ text_data' = text_data ++ omap snd steps
      ∧ errors' = errors ++ omap failure steps
      ∧ Forall step_ok steps.
Proof.
  induction paths as [|p paths IH];
    intros text_data errors batch st text_data' errors' st' Hrun.
  { rewrite loop_nil in Hrun. simplify_eq. exists []. cbn.
    by rewrite !app_nil_r. }
  cbn [read_text_loop] in Hrun. rewrite bind_unfold in Hrun.
  set (pre := if _ && _ then _ else _) in Hrun.
  assert (∃ b st0, pre st = (Ok b, st0)) as (b & st0 & Hpre).
  { subst pre. destruct (_ && _); by eexists _, _. }
  rewrite Hpre, bind_unfold in Hrun. clear Hpre pre.
  destruct (read w (reader_for self p) st0) as [[[outcome e]|ex] st1]
    eqn:Hread; [|done].
  cbn [fst snd] in Hrun.
  destruct outcome as [text|].
  - rewrite bind_unfold, poll_cancelled_unfold in Hrun.
    destruct (cancelled w (polls st1)); [by rewrite mret_unfold in Hrun|].
    apply read_Some_path in Hread as [Hpath _].
    rewrite path_reader_for in Hpath.
    apply IH in Hrun as (steps & H1 & H2 & H3 & H4).
    exists ((p, Some text) :: steps). cbn.
    rewrite H1, H2, H3, <- app_assoc. split_and!; try done.
    constructor; [|done]. intros t [= <-]. done.
  - rewrite bind_unfold, poll_cancelled_unfold in Hrun.
    destruct (cancelled w (polls st1)); [by rewrite mret_unfold in Hrun|].
    apply read_None_label in Hread. rewrite path_reader_for in Hread.
    apply IH in Hrun as (steps & H1 & H2 & H3 & H4).
    exists ((p, None) :: steps). cbn.
    rewrite H1, H2, H3, <- app_assoc, Hread. split_and!; try done.
    constructor; [|done]. by intros t [=].
Qed.

Lemma steps_lengths (steps : list (string * option TextData)) :
  length (omap snd steps) + length (omap failure steps) = length steps.
Proof.
  induction steps as [|[p [t|]] steps IH]; cbn in *; lia.
Qed.

Lemma steps_paths_sublist (steps : list (string * option TextData)) :
  Forall step_ok steps →
  td_path <$> omap snd steps `sublist_of` fst <$> steps.
Proof.
  induction 1 as [|[p [t|]] steps Hok _ IH]; cbn.
  - done.
  - rewrite (Hok t eq_refl). by apply sublist_skip.
  - by apply sublist_cons.
Qed.

Lemma steps_errors_sublist (steps : list (string * option TextData)) :
  omap failure steps `sublist_of` PathLib.name <$> (fst <$> steps).
Proof.
  induction steps as [|[p [t|]] steps IH]; cbn.
  - done.
  - by apply sublist_cons.
  - by apply sublist_skip.
Qed.

(** When the document phase completes, every candidate path is accounted
    for exactly once, in scan order: it either gave a record carrying that
    path or left its file name in the error list. *)
Theorem read_text_data_accounts w self st text_data errors st' :
  _read_text_data w self st = (Ok (Some (text_data, errors)), st') →
  let paths := scan_for w self (text_patterns self) in
  paths ≠ []
  ∧ length text_data + length errors = length paths
  ∧ td_path <$> text_data `sublist_of` paths
  ∧ errors `sublist_of` PathLib.name <$> paths
  ∧ ∃ steps,
      fst <$> steps = paths
      ∧ text_data = omap snd steps
      ∧ errors = omap failure steps
      ∧ Forall step_ok steps.
Proof.
  intros Hrun paths. unfold _read_text_data in Hrun.
  fold (text_patterns self) in Hrun. fold paths in Hrun.
  destruct (length paths =? 0)%nat eqn:E; [done|].
  apply read_text_loop_partition in Hrun as (steps & H1 & H2 & H3 & H4).
  cbn in H2, H3. subst text_data errors.
  split_and!.
  - intros Hnil. by rewrite Hnil in E.
  - rewrite <- H1, length_fmap. apply steps_lengths.
  - rewrite <- H1. by apply steps_paths_sublist.
  - rewrite <- H1. apply steps_errors_sublist.
  - by exists steps.
Qed.

Lemma read_text_data_accounts_witness :
  ∃ text_data,
    fst (_read_text_data (demo_world never) demo initial_state)
    = Ok (Some (text_data, ["broken.docx"; "c.TXT"]))
    ∧ length text_data + 2
      = length (scan_for (demo_world never) demo (text_patterns demo)).
Proof.
  destruct (_read_text_data (demo_world never) demo initial_state)
    as [r st'] eqn:Hrun.
  assert (∃ text_data, r = Ok (Some (text_data, ["broken.docx"; "c.TXT"])))
    as (text_data & ->).
  { vm_compute in Hrun. injection Hrun as <- _. by eexists. }
  destruct (read_text_data_accounts _ _ _ _ _ _ Hrun) as (_ & Hcount & _).
  by exists text_data.
Defined.
